(** * download_laws.py: the folder walker and downloader, embedded in Rocq

    The development follows [src/download_laws.py] function by function:
    [sanitize_filename], [get_folder_data], [download_file],
    [process_folder] and [main].  Python strings are lists of Unicode code
    points, JSON values are a tagged union, the local file system is a
    finite map from paths to nodes, and the remote service is an oracle
    answering the n-th request.

    Not modelled: console output ([print]), which no result depends on;
    file-system failures other than those of the path structure (a missing
    parent, a file where a directory is expected and the reverse), so there
    is no permission or disk-space error; file systems that fold case.  An
    exception that no handler catches ends the run. *)

From Stdlib Require Import ZArith QArith.
From Stdlib Require PrimFloat DecimalString.
From stdpp Require Import gmap list fin_maps strings.

Local Open Scope nat_scope.

(** ** Python strings *)

(** A Python [str] is a sequence of code points; [len] counts them. *)
Abbreviation char := N (only parsing).
Abbreviation str := (list N) (only parsing).

(** An ASCII literal of the source as a [str]. *)
Definition lit (s : string) : str :=
  List.map Ascii.N_of_ascii (String.list_ascii_of_string s).

Definition str_eqb (a b : str) : bool := bool_decide (a = b).

(** [s.strip(chars)]: drop the longest prefix, then the longest suffix,
    made of characters of [chars]. *)
Fixpoint lstrip (chars : str) (s : str) : str :=
  match s with
  | [] => []
  | c :: s' => if existsb (N.eqb c) chars then lstrip chars s' else s
  end.

Definition rstrip (chars : str) (s : str) : str :=
  rev (lstrip chars (rev s)).

Definition strip (chars : str) (s : str) : str :=
  rstrip chars (lstrip chars s).

(** [s.endswith(suffix)] *)
Definition endswith (s suffix : str) : bool :=
  str_eqb (drop (length s - length suffix) s) suffix
  && (length suffix <=? length s).

(** [s.lower()], on the ASCII range.  Python also lowers letters outside
    ASCII, but none of them lowers to one of [.], [p], [d], [f], and every
    character lowers to a non-empty string, so the one use of [lower] in the
    source, [file_name.lower().endswith('.pdf')], has the same value. *)
Definition lower_char (c : char) : char :=
  if ((65 <=? c) && (c <=? 90))%N then (c + 32)%N else c.

Definition lower (s : str) : str := List.map lower_char s.

(** [s.split(sep)] for a one-character separator: never the empty list. *)
Fixpoint split (sep : char) (s : str) : list str :=
  match s with
  | [] => [[]]
  | c :: s' =>
      if N.eqb c sep then [] :: split sep s'
      else match split sep s' with
           | seg :: segs => (c :: seg) :: segs
           | [] => [[c]]
           end
  end.

(** ** Configuration (lines 24-43) *)

Definition MAX_RETRIES : nat := 3.
Definition RETRY_DELAY : Q := 2 # 1.
Definition DOWNLOAD_DELAY : Q := 1 # 2.

(** ** sanitize_filename (lines 46-59) *)

(** The character class of [invalid_chars]: less-than, greater-than, colon,
    double quote (code point 34), slash, backslash, bar, question mark and
    star. *)
Definition invalid_chars : str := lit "<>:" ++ [34%N] ++ lit "/\|?*".

Definition is_invalid (c : char) : bool := existsb (N.eqb c) invalid_chars.

(** [re.sub(invalid_chars, '_', name)] *)
Definition re_sub_invalid (name : str) : str :=
  List.map (fun c => if is_invalid c then 95%N else c) name.

Definition sanitize_filename (name : str) : str :=
  let sanitized := re_sub_invalid name in
  let sanitized := strip (lit ". ") sanitized in
  let sanitized :=
    if 200 <? length sanitized then take 200 sanitized else sanitized in
  match sanitized with
  | [] => lit "unnamed"
  | _ => sanitized
  end.

(** The characters [strip('. ')] removes. *)
Definition is_dot_or_space (c : char) : bool := existsb (N.eqb c) (lit ". ").

(** The string [sanitize_filename] holds before the fallback is applied. *)
Definition truncated (name : str) : str :=
  let sanitized := strip (lit ". ") (re_sub_invalid name) in
  if 200 <? length sanitized then take 200 sanitized else sanitized.

(** ASCII white space; [str.isspace] holds for these and for more. *)
Definition is_whitespace (c : char) : bool :=
  existsb (N.eqb c) [9; 10; 11; 12; 13; 32]%N.

(** The spec's wording of a trimmed name: neither end of the string is
    white space or a dot. *)
Definition edges_trimmed (s : str) : bool :=
  match head s, last s with
  | Some a, Some b =>
      negb (is_whitespace a || N.eqb a 46) && negb (is_whitespace b || N.eqb b 46)
  | _, _ => true
  end.

(** A tab, 198 letters, a space and a letter: 201 characters, none removed
    by [strip('. ')], cut to the first 200. *)
Definition tab_then_long : str := [9%N] ++ repeat 97%N 198 ++ lit " b".

(** ** JSON values as the Python objects [response.json()] builds *)

#[local] Unset Elimination Schemes.
Inductive pyval :=
| PNone
| PBool (b : bool)
| PInt (z : Z)
| PFloat (x : PrimFloat.float)
| PStr (s : str)
| PList (l : list pyval)
| PDict (kvs : list (str * pyval)).
#[local] Set Elimination Schemes.

(** Truth value of an object, as [if not x] tests it. *)
Definition truthy (v : pyval) : bool :=
  match v with
  | PNone => false
  | PBool b => b
  | PInt z => negb (z =? 0)%Z
  | PFloat x => negb (PrimFloat.eqb x PrimFloat.zero)
  | PStr [] | PList [] | PDict [] => false
  | PStr _ | PList _ | PDict _ => true
  end.

(** Exceptions that no handler of the program catches.
    [requests.RequestException] is always caught and has no constructor. *)
Inductive exn := AttributeError | TypeError | OSError | RecursionError.

(** Result of running a piece of the program: a value, an uncaught
    exception, or exhaustion of the recursion budget of the model. *)
Inductive outcome (A : Type) :=
| Ret (a : A)
| Raise (e : exn)
| OutOfFuel.
Arguments Ret {A} a.
Arguments Raise {A} e.
Arguments OutOfFuel {A}.

(** A dict keeps one value per key; the first binding of the list is it. *)
Fixpoint assoc (key : str) (kvs : list (str * pyval)) : option pyval :=
  match kvs with
  | [] => None
  | (k, v) :: kvs' => if str_eqb k key then Some v else assoc key kvs'
  end.

(** [d.get(key, default)]: only a dict has the method. *)
Definition py_get (d : pyval) (key : str) (default : pyval) : outcome pyval :=
  match d with
  | PDict kvs => Ret (match assoc key kvs with Some v => v | None => default end)
  | _ => Raise AttributeError
  end.

(** [for x in v]: lists yield their elements, dicts their keys, strings
    their characters; other JSON values are not iterable. *)
Definition py_iter (v : pyval) : outcome (list pyval) :=
  match v with
  | PList l => Ret l
  | PDict kvs => Ret (List.map (fun kv => PStr (fst kv)) kvs)
  | PStr s => Ret (List.map (fun c => PStr [c]) s)
  | _ => Raise TypeError
  end.

(** [sanitize_filename(v)] on an object: [re.sub] rejects a non-string. *)
Definition py_sanitize (v : pyval) : outcome str :=
  match v with
  | PStr s => Ret (sanitize_filename s)
  | _ => Raise TypeError
  end.

(** ** The local file system *)

(** A [pathlib.Path] relative to the working directory, as its components.
    [p / name] appends one component: sanitized names hold no separator and
    do not start with a dot. *)
Abbreviation path := (list (list N)) (only parsing).

Inductive node := File (content : list N) | Dir.

(** The working directory [[]] always exists. *)
Definition lookup_node (fs : gmap path node) (p : path) : option node :=
  match p with
  | [] => Some Dir
  | _ => fs !! p
  end.

Definition parent (p : path) : path := removelast p.

(** [os.mkdir] under [exist_ok=True]. *)
Definition mkdir1 (fs : gmap path node) (p : path) : outcome (gmap path node) :=
  match lookup_node fs p with
  | Some Dir => Ret fs
  | Some (File _) => Raise OSError
  | None => Ret (<[p := Dir]> fs)
  end.

(** [p.mkdir(parents=True, exist_ok=True)] where [p = base / todo]: the
    missing ancestors are created from the outermost one. *)
Fixpoint mkdir_from (base todo : path) (fs : gmap path node)
  : outcome (gmap path node) :=
  match todo with
  | [] => Ret fs
  | c :: todo' =>
      match mkdir1 fs (base ++ [c]) with
      | Ret fs' => mkdir_from (base ++ [c]) todo' fs'
      | other => other
      end
  end.

(** [open(p, 'wb')]: the parent must be a directory and [p] must not be
    one; the file is created or truncated. *)
Definition fs_open_wb (fs : gmap path node) (p : path) : outcome (gmap path node) :=
  match lookup_node fs (parent p), lookup_node fs p with
  | Some Dir, Some Dir => Raise OSError
  | Some Dir, _ => Ret (<[p := File []]> fs)
  | _, _ => Raise OSError
  end.

(** [f.write(chunk)] on the file opened at [p]. *)
Definition fs_write (fs : gmap path node) (p : path) (chunk : list N)
  : gmap path node :=
  alter (fun n => match n with File c => File (c ++ chunk) | Dir => Dir end) p fs.

(** [p.unlink()] *)
Definition fs_unlink (fs : gmap path node) (p : path) : outcome (gmap path node) :=
  match lookup_node fs p with
  | Some (File _) => Ret (delete p fs)
  | _ => Raise OSError
  end.

(** ** The remote service and the state of a run *)

(** Answer to [requests.get(url).json()] after [raise_for_status]:
    [JFail] is a transport error or a non-success status, [JInvalid] a body
    that is not JSON ([requests.JSONDecodeError], a [RequestException]),
    [JOk v] a parsed body, and [JRaise e] a body on which [json()] raises an
    exception that is not a [RequestException], as [RecursionError] on
    valid JSON nested deeper than the interpreter's recursion limit. *)
Inductive json_reply := JFail | JInvalid | JOk (v : pyval) | JRaise (e : exn).

(** Answer to a streamed GET: [SFail] fails before any byte is read;
    [SChunks cs complete] yields the chunks [cs] from [iter_content] and
    then ends normally ([complete]) or with a [RequestException]. *)
Inductive stream_reply := SFail | SChunks (chunks : list (list N)) (complete : bool).

(** The service answers the [n]-th request of the run; the URL is
    represented by the value interpolated into it. *)
Record network := {
  folder_reply : nat -> pyval -> json_reply;
  file_reply : nat -> pyval -> stream_reply
}.

Inductive event :=
| EvFolderGet (folder_id : pyval)
| EvFileGet (file_path : pyval)
| EvSleep (seconds : Q).

Record world := {
  w_fs : gmap path node;
  w_clock : nat;          (* requests issued so far *)
  w_trace : list event    (* requests and sleeps, oldest first *)
}.

(** ** State and exception monad *)

Definition M (A : Type) : Type := world -> outcome A * world.

Definition ret {A} (a : A) : M A := fun w => (Ret a, w).

Definition bind {A B} (k : A -> M B) (m : M A) : M B :=
  fun w =>
    match m w with
    | (Ret a, w') => k a w'
    | (Raise e, w') => (Raise e, w')
    | (OutOfFuel, w') => (OutOfFuel, w')
    end.

(** The notations [x ← m; k] and [m;; k] below are those of [bind]. *)
#[global] Instance M_ret : MRet M := @ret.
#[global] Instance M_bind : MBind M := @bind.

Definition lift {A} (o : outcome A) : M A := fun w => (o, w).

Definition when (b : bool) (m : M unit) : M unit := if b then m else ret tt.

Definition set_fs (w : world) (fs : gmap path node) : world :=
  {| w_fs := fs; w_clock := w_clock w; w_trace := w_trace w |}.

(** Lift a file-system operation that may raise. *)
Definition with_fs (op : gmap path node -> outcome (gmap path node)) : M unit :=
  fun w =>
    match op (w_fs w) with
    | Ret fs' => (Ret tt, set_fs w fs')
    | Raise e => (Raise e, w)
    | OutOfFuel => (OutOfFuel, w)
    end.

Definition sleep (seconds : Q) : M unit :=
  fun w => (Ret tt, {| w_fs := w_fs w; w_clock := w_clock w;
                       w_trace := w_trace w ++ [EvSleep seconds] |}).

(** [p.exists()] *)
Definition path_exists (p : path) : M bool :=
  fun w =>
    (Ret (match lookup_node (w_fs w) p with Some _ => true | None => false end),
     w).

Definition mkdir_parents (p : path) : M unit := with_fs (mkdir_from [] p).
Definition unlink (p : path) : M unit := with_fs (fun fs => fs_unlink fs p).
Definition open_wb (p : path) : M unit := with_fs (fun fs => fs_open_wb fs p).

Definition write_chunks (p : path) (chunks : list (list N)) : M unit :=
  with_fs (fun fs => Ret (foldl (fun fs chunk => fs_write fs p chunk) fs chunks)).

(** Lines 106-108: remove what an interrupted attempt left behind. *)
Definition cleanup (save_path : path) : M unit :=
  ex ← path_exists save_path;
  when ex (unlink save_path).

Section Program.

(** Library functions the program calls: the text an f-string interpolates
    for a value ([str(v)]), and [urllib.parse.unquote]. *)
Variable fmt : pyval -> str.
Variable unquote : str -> str.

(** The service the run talks to. *)
Variable net : network.

(** [requests.get] followed by [raise_for_status] and [json()]. *)
Definition http_get_json (folder_id : pyval) : M json_reply :=
  fun w => (Ret (folder_reply net (w_clock w) folder_id),
            {| w_fs := w_fs w; w_clock := S (w_clock w);
               w_trace := w_trace w ++ [EvFolderGet folder_id] |}).

(** [requests.get(..., stream=True)] followed by [raise_for_status]. *)
Definition http_get_stream (file_path : pyval) : M stream_reply :=
  fun w => (Ret (file_reply net (w_clock w) file_path),
            {| w_fs := w_fs w; w_clock := S (w_clock w);
               w_trace := w_trace w ++ [EvFileGet file_path] |}).

(** ** get_folder_data (lines 62-79) *)

(** The loop over [attempts = range(MAX_RETRIES)]; [None] is [PNone].
    The handler catches [requests.RequestException] only: another exception
    of line 73 leaves the function. *)
Fixpoint get_folder_attempts (attempts : list nat) (folder_id : pyval) : M pyval :=
  match attempts with
  | [] => mret PNone
  | attempt :: rest =>
      r ← http_get_json folder_id;
      match r with
      | JOk v => mret v
      | JFail | JInvalid =>
          when (attempt <? MAX_RETRIES - 1) (sleep RETRY_DELAY);;
          get_folder_attempts rest folder_id
      | JRaise e => lift (Raise e)
      end
  end.

Definition get_folder_data (folder_id : pyval) : M pyval :=
  get_folder_attempts (seq 0 MAX_RETRIES) folder_id.

(** ** download_file (lines 82-110) *)

Fixpoint download_attempts (attempts : list nat) (file_path : pyval)
    (save_path : path) : M bool :=
  match attempts with
  | [] => mret false
  | attempt :: rest =>
      (* the [except requests.RequestException] handler, then the next turn *)
      let handler : M bool :=
        when (attempt <? MAX_RETRIES - 1) (sleep RETRY_DELAY);;
        cleanup save_path;;
        download_attempts rest file_path save_path in
      r ← http_get_stream file_path;
      match r with
      | SFail => handler
      | SChunks chunks complete =>
          open_wb save_path;;
          write_chunks save_path chunks;;
          if complete then mret true else handler
      end
  end.

Definition download_file (file_path : pyval) (save_path : path) : M bool :=
  download_attempts (seq 0 MAX_RETRIES) file_path save_path.

(** ** process_folder (lines 113-189) *)

(** Lines 141-150: the name a file entry is saved under. *)
Definition safe_file_name (file_path file_name : pyval) : outcome str :=
  let derived :=
    if truthy file_name then Ret file_name
    else match file_path with
         | PStr p => Ret (PStr (unquote (List.last (split 47%N p) [])))
         | _ => Raise AttributeError
         end in
  match derived with
  | Ret (PStr name) =>
      let name :=
        if endswith (lower name) (lit ".pdf") then name
        else name ++ lit ".pdf" in
      Ret (sanitize_filename name)
  | Ret _ => Raise AttributeError
  | Raise e => Raise e
  | OutOfFuel => OutOfFuel
  end.

(** Lines 134-168: the loop over [files]. *)
Fixpoint process_files (files : list pyval) (current_path : path)
    (downloaded failed : nat) : M (nat * nat) :=
  match files with
  | [] => mret (downloaded, failed)
  | file_info :: rest =>
      file_path ← lift (py_get file_info (lit "path") (PStr []));
      file_name ← lift (py_get file_info (lit "name") (PStr []));
      if negb (truthy file_path) then
        process_files rest current_path downloaded failed
      else
        safe_name ← lift (safe_file_name file_path file_name);
        let save_path := current_path ++ [safe_name] in
        ex ← path_exists save_path;
        if (ex : bool) then process_files rest current_path (S downloaded) failed
        else
          ok ← download_file file_path save_path;
          sleep DOWNLOAD_DELAY;;
          if (ok : bool) then process_files rest current_path (S downloaded) failed
          else process_files rest current_path downloaded (S failed)
  end.

(** Lines 172-187: the loop over [folders]; [recurse] is [process_folder]. *)
Fixpoint process_subfolders (recurse : pyval -> path -> M (nat * nat))
    (folders : list pyval) (current_path : path)
    (downloaded failed : nat) : M (nat * nat) :=
  match folders with
  | [] => mret (downloaded, failed)
  | subfolder :: rest =>
      subfolder_id ← lift (py_get subfolder (lit "id") PNone);
      subfolder_name ←
        lift (py_get subfolder (lit "name")
                (PStr (lit "folder_" ++ fmt subfolder_id)));
      match subfolder_id with
      | PNone => process_subfolders recurse rest current_path downloaded failed
      | _ =>
          safe_folder_name ← lift (py_sanitize subfolder_name);
          let subfolder_path := current_path ++ [safe_folder_name] in
          mkdir_parents subfolder_path;;
          sub ← recurse subfolder_id subfolder_path;
          process_subfolders recurse rest current_path
            (downloaded + fst sub) (failed + snd sub)
      end
  end.

(** [fuel] bounds the depth of the recursion; the source recurses as deep
    as the remote tree.  The parameter [depth] of the source only indents
    the printed lines. *)
Fixpoint process_folder (fuel : nat) (folder_id : pyval) (current_path : path)
  : M (nat * nat) :=
  match fuel with
  | 0 => lift OutOfFuel
  | S fuel' =>
      data ← get_folder_data folder_id;
      match data with
      | PNone => mret (0, 0)
      | _ =>
          folder_name ←
            lift (py_get data (lit "name") (PStr (lit "folder_" ++ fmt folder_id)));
          files ← lift (py_get data (lit "files") (PList []));
          files ← lift (py_iter files);
          counts ← process_files files current_path 0 0;
          folders ← lift (py_get data (lit "folders") (PList []));
          folders ← lift (py_iter folders);
          process_subfolders (process_folder fuel') folders current_path
            (fst counts) (snd counts)
      end
  end.

(** ** main (lines 192-235) *)

Definition OUTPUT_DIR : path := [lit "laws"].
Definition ROOT_FOLDER_IDS : list pyval := [PInt 12; PInt 569].

(** Lines 207-226: the loop over the root ids. *)
Fixpoint main_loop (fuel : nat) (roots : list pyval)
    (total_downloaded total_failed : nat) : M (nat * nat) :=
  match roots with
  | [] => mret (total_downloaded, total_failed)
  | root_id :: rest =>
      root_data ← get_folder_data root_id;
      match root_data with
      | PNone => main_loop fuel rest total_downloaded total_failed
      | _ =>
          root_name ←
            lift (py_get root_data (lit "name")
                    (PStr (lit "resources_" ++ fmt root_id)));
          safe_root_name ← lift (py_sanitize root_name);
          let root_path := OUTPUT_DIR ++ [safe_root_name] in
          mkdir_parents root_path;;
          counts ← process_folder fuel root_id root_path;
          main_loop fuel rest (total_downloaded + fst counts)
            (total_failed + snd counts)
      end
  end.

Definition main (fuel : nat) : M (nat * nat) :=
  mkdir_parents OUTPUT_DIR;;
  main_loop fuel ROOT_FOLDER_IDS 0 0.

End Program.

(** ** Vocabulary of the statements *)

(** An attempt of [get_folder_data] that ends in the handler. *)
Definition folder_attempt_fails (r : json_reply) : bool :=
  match r with JOk _ | JRaise _ => false | JFail | JInvalid => true end.

(** An attempt of [download_file] that ends in the handler. *)
Definition stream_attempt_fails (r : stream_reply) : bool :=
  match r with SFail => true | SChunks _ complete => negb complete end.

(** [open(p, 'wb')] succeeds: the parent is a directory, [p] is not one. *)
Definition can_open (fs : gmap path node) (p : path) : bool :=
  match lookup_node fs (parent p), lookup_node fs p with
  | Some Dir, Some Dir => false
  | Some Dir, _ => true
  | _, _ => false
  end.

(** What a retry loop whose every attempt fails leaves in the trace: the
    request of each attempt, and the delay after all but the last. *)
Definition retry_trace (request : event) (attempts : list nat) : list event :=
  flat_map (fun attempt =>
              request :: if attempt <? MAX_RETRIES - 1
                         then [EvSleep RETRY_DELAY] else []) attempts.

Definition is_file_get (e : event) : bool :=
  match e with EvFileGet _ => true | _ => false end.

(** The service gives the same answer to a folder request at any time. *)
Definition stable_folders (net : network) : Prop :=
  forall t t' folder_id, folder_reply net t folder_id = folder_reply net t' folder_id.

(** The world once a request was sent, and once a failed attempt went
    through the handler's delay. *)
Definition after_request (w : world) (request : event) : world :=
  {| w_fs := w_fs w; w_clock := S (w_clock w);
     w_trace := w_trace w ++ [request] |}.

Definition after_failure (w : world) (request : event) (attempt : nat) : world :=
  {| w_fs := w_fs w; w_clock := S (w_clock w);
     w_trace := w_trace w ++ retry_trace request [attempt] |}.

(** [w'] continues [w] without any download request. *)
Definition quiet (w w' : world) : Prop :=
  exists evs, w_trace w' = w_trace w ++ evs
              /\ Forall (fun e => is_file_get e = false) evs.

(** ** Concrete services and states for the examples *)

(** [str(v)] for the scalars whose text is plain: [None], booleans,
    integers in decimal, strings.  The [repr] of floats and containers is not
    modelled; no example interpolates one. *)
Definition fmt_scalar (v : pyval) : str :=
  match v with
  | PNone => lit "None"
  | PBool true => lit "True"
  | PBool false => lit "False"
  | PInt z => lit (DecimalString.NilZero.string_of_int (Z.to_int z))
  | PStr s => s
  | PFloat _ | PList _ | PDict _ => []
  end.

(** [unquote] on a string without a percent sign returns it unchanged. *)
Definition unquote_plain (s : str) : str := s.

(** A dict literal with ASCII keys. *)
Definition dict (kvs : list (string * pyval)) : pyval :=
  PDict (List.map (fun kv => (lit (fst kv), snd kv)) kvs).

(** Every request fails before a byte is read. *)
Definition net_down : network :=
  {| folder_reply := fun _ _ => JFail; file_reply := fun _ _ => SFail |}.

(** Every download breaks after one chunk of three bytes. *)
Definition net_broken_stream : network :=
  {| folder_reply := fun _ _ => JFail;
     file_reply := fun _ _ => SChunks [[37; 80; 68]%N] false |}.

(** An empty working directory, and one holding the directory [laws]. *)
Definition w_empty : world := {| w_fs := ∅; w_clock := 0; w_trace := [] |}.
Definition w_laws : world :=
  {| w_fs := {[ [lit "laws"] := Dir ]}; w_clock := 0; w_trace := [] |}.


(** A 200-character name without extension. *)
Definition long_name : str := repeat 97%N 200.

(** The scenario of the spec, with one more subfolder, id 5, whose fetch
    fails: root 12 holds the folders 5 and 99, and folder 99 holds one file. *)
Definition net_scenario : network :=
  {| folder_reply := fun _ folder_id =>
       match folder_id with
       | PInt 12 =>
           JOk (dict [("name", PStr (lit "Laws")); ("files", PList []);
                      ("folders",
                       PList [dict [("id", PInt 5); ("name", PStr (lit "Broken"))];
                              dict [("id", PInt 99);
                                    ("name", PStr (lit "Civil Code"))]])])
       | PInt 99 =>
           JOk (dict [("name", PStr (lit "Civil Code"));
                      ("files",
                       PList [dict [("path", PStr (lit "doc/a.pdf"));
                                    ("name", PStr (lit "Law A.pdf"))]]);
                      ("folders", PList [])])
       | _ => JFail
       end;
     file_reply := fun _ _ => SChunks [[37; 80; 68; 70]%N] true |}.

(** Root 12 lists one file whose download fails on every attempt, at any
    time; no other folder can be fetched. *)
Definition net_file_missing : network :=
  {| folder_reply := fun _ folder_id =>
       match folder_id with
       | PInt 12 =>
           JOk (dict [("name", PStr (lit "Laws"));
                      ("files",
                       PList [dict [("path", PStr (lit "doc/a.pdf"));
                                    ("name", PStr (lit "Law A.pdf"))]])])
       | _ => JFail
       end;
     file_reply := fun _ _ => SFail |}.

(** A working directory where [laws/Law A.pdf] is already saved. *)
Definition w_saved : world :=
  {| w_fs := {[ [lit "laws"] := Dir;
               [lit "laws"; lit "Law A.pdf"] := File [37; 80; 68; 70]%N ]};
     w_clock := 0; w_trace := [] |}.

(** ** Vocabulary of the further properties *)

(** [sep.join(segs)] *)
Fixpoint join (sep : char) (segs : list str) : str :=
  match segs with
  | [] => []
  | [seg] => seg
  | seg :: rest => seg ++ sep :: join sep rest
  end.

(** The entry is a dict whose [path] is not empty: the files loop does not
    skip it. *)
Definition has_path (file_info : pyval) : bool :=
  match py_get file_info (lit "path") (PStr []) with
  | Ret file_path => truthy file_path
  | _ => false
  end.

Definition is_folder_get (e : event) : bool :=
  match e with EvFolderGet _ => true | _ => false end.

(** The directory [p] and all its ancestors exist. *)
Definition dirs_exist (fs : gmap path node) (p : path) : Prop :=
  forall q, q `prefix_of` p -> lookup_node fs q = Some Dir.

(** The first request of the run breaks after two bytes; later ones stream
    four bytes to the end. *)
Definition net_second_try : network :=
  {| folder_reply := fun _ _ => JFail;
     file_reply := fun t _ =>
       if t <? 1 then SChunks [[37; 80]%N] false
       else SChunks [[37; 80]%N; [68; 70]%N] true |}.

(** The first two requests get a body that is not JSON, the third an empty
    object. *)
Definition net_third_try : network :=
  {| folder_reply := fun t _ => if t <? 2 then JInvalid else JOk (PDict []);
     file_reply := fun _ _ => SFail |}.

(** Two file entries, the second without a path. *)
Definition two_entries : list pyval :=
  [dict [("path", PStr (lit "doc/a.pdf")); ("name", PStr (lit "Law A.pdf"))];
   dict [("name", PStr (lit "Law B.pdf"))]].

(** Every body is valid JSON nested deeper than the recursion limit. *)
Definition net_deep_json : network :=
  {| folder_reply := fun _ _ => JRaise RecursionError;
     file_reply := fun _ _ => SFail |}.

(** * Properties *)

(** ** The name sanitizer *)

Section Sanitizer.

Implicit Types (s name chars : str) (c : char).

Example sanitize_rapport :
  sanitize_filename (lit "rapport <final>.pdf") = lit "rapport _final_.pdf".
Proof. reflexivity. Qed.

Example sanitize_dots : sanitize_filename (lit " .. ") = lit "unnamed".
Proof. reflexivity. Qed.

Lemma lstrip_Forall (P : char -> Prop) chars s :
  Forall P s -> Forall P (lstrip chars s).
Proof.
  induction 1 as [|c s Hc Hs IH]; simpl; [constructor|].
  destruct (existsb (N.eqb c) chars); [exact IH | by constructor].
Qed.

Lemma strip_Forall (P : char -> Prop) chars s :
  Forall P s -> Forall P (strip chars s).
Proof.
  intros H. unfold strip, rstrip.
  apply Forall_rev, lstrip_Forall, Forall_rev, lstrip_Forall, H.
Qed.

Lemma re_sub_invalid_clean name :
  Forall (fun c => is_invalid c = false) (re_sub_invalid name).
Proof.
  unfold re_sub_invalid. apply Forall_map, Forall_forall. intros c _.
  simpl. destruct (is_invalid c) eqn:E; [reflexivity | exact E].
Qed.

Lemma sanitize_filename_unfold name :
  sanitize_filename name =
  match truncated name with [] => lit "unnamed" | _ => truncated name end.
Proof. reflexivity. Qed.

Lemma truncated_length name : length (truncated name) <= 200.
Proof.
  unfold truncated. cbv zeta.
  destruct (200 <? _) eqn:E.
  - rewrite length_take. lia.
  - apply Nat.ltb_ge in E. exact E.
Qed.

Lemma truncated_clean name :
  Forall (fun c => is_invalid c = false) (truncated name).
Proof.
  unfold truncated. cbv zeta.
  pose proof (strip_Forall _ (lit ". ") _ (re_sub_invalid_clean name)) as H.
  destruct (200 <? _); [by apply Forall_take | exact H].
Qed.

Lemma sanitize_filename_clean name :
  Forall (fun c => is_invalid c = false) (sanitize_filename name).
Proof.
  rewrite sanitize_filename_unfold.
  pose proof (truncated_clean name) as H.
  destruct (truncated name); [|exact H].
  apply Forall_forall. intros c Hc. apply list_elem_of_In in Hc.
  vm_compute in Hc. intuition (subst; reflexivity).
Qed.

Lemma is_invalid_spec c : is_invalid c = true <-> c ∈ invalid_chars.
Proof.
  unfold is_invalid. rewrite existsb_exists. split.
  - intros (x & Hx & E). apply N.eqb_eq in E. subst. by apply list_elem_of_In.
  - intros H. exists c. split; [by apply list_elem_of_In | apply N.eqb_refl].
Qed.

Lemma sanitize_filename_length name : length (sanitize_filename name) <= 200.
Proof.
  rewrite sanitize_filename_unfold.
  pose proof (truncated_length name) as H.
  destruct (truncated name); [vm_compute; lia | exact H].
Qed.

(** C8: for every input, [sanitize_filename] returns a non-empty string of
    at most 200 characters that holds none of the reserved characters, and
    it is the fallback ["unnamed"] when the cleaned name is empty. *)
Theorem sanitize_filename_safe name :
  sanitize_filename name <> []
  /\ length (sanitize_filename name) <= 200
  /\ (forall c, c ∈ invalid_chars -> c ∉ sanitize_filename name)
  /\ (strip (lit ". ") (re_sub_invalid name) = [] ->
      sanitize_filename name = lit "unnamed").
Proof.
  repeat split.
  - rewrite sanitize_filename_unfold. destruct (truncated name); discriminate.
  - apply sanitize_filename_length.
  - intros c Hc Hin.
    pose proof (sanitize_filename_clean name) as H.
    rewrite Forall_forall in H. specialize (H c Hin).
    apply is_invalid_spec in Hc. congruence.
  - intros E. rewrite sanitize_filename_unfold. unfold truncated.
    rewrite E. reflexivity.
Qed.

(** The fallback at a name made of dots and spaces. *)
Lemma sanitize_filename_safe_witness :
  sanitize_filename (lit " .. ") = lit "unnamed".
Proof.
  apply (proj2 (proj2 (proj2 (sanitize_filename_safe (lit " .. "))))).
  reflexivity.
Defined.

(** *** Leading and trailing characters *)

Lemma lstrip_head chars s c :
  head (lstrip chars s) = Some c -> existsb (N.eqb c) chars = false.
Proof.
  induction s as [|x s IH]; simpl; [discriminate|].
  destruct (existsb (N.eqb x) chars) eqn:E; [exact IH|].
  simpl. intros [= <-]. exact E.
Qed.

Lemma lstrip_suffix chars s : exists pre, s = pre ++ lstrip chars s.
Proof.
  induction s as [|x s [pre IH]]; simpl; [by exists []|].
  destruct (existsb (N.eqb x) chars).
  - exists (x :: pre). simpl. by rewrite <- IH.
  - by exists [].
Qed.

Lemma rstrip_prefix chars s : exists post, s = rstrip chars s ++ post.
Proof.
  unfold rstrip. destruct (lstrip_suffix chars (rev s)) as [pre E].
  exists (rev pre). rewrite <- rev_app_distr, <- E. by rewrite rev_involutive.
Qed.

Lemma rstrip_last chars s c :
  last (rstrip chars s) = Some c -> existsb (N.eqb c) chars = false.
Proof.
  unfold rstrip. rewrite rev_alt. fold (reverse (lstrip chars (rev s))).
  rewrite last_reverse. apply lstrip_head.
Qed.

Lemma strip_head chars s c :
  head (strip chars s) = Some c -> existsb (N.eqb c) chars = false.
Proof.
  unfold strip. intros H.
  destruct (rstrip_prefix chars (lstrip chars s)) as [post E].
  apply (lstrip_head chars s). rewrite E.
  destruct (rstrip chars (lstrip chars s)); [discriminate | exact H].
Qed.

Lemma strip_last chars s c :
  last (strip chars s) = Some c -> existsb (N.eqb c) chars = false.
Proof. apply rstrip_last. Qed.

Lemma truncated_head name c :
  head (truncated name) = Some c -> is_dot_or_space c = false.
Proof.
  unfold truncated. cbv zeta. intros H. apply (strip_head _ (re_sub_invalid name)).
  destruct (200 <? _); [|exact H].
  destruct (strip _ _); [discriminate | exact H].
Qed.

(** C7, amended: the result never starts with a space or a dot, and when
    the stripped name has at most 200 characters (nothing is cut) it does
    not end with one either.  Only the space character and the dot are
    stripped, not other white space. *)
Theorem sanitize_filename_trimmed name :
  (forall c, head (sanitize_filename name) = Some c -> is_dot_or_space c = false)
  /\ (length (strip (lit ". ") (re_sub_invalid name)) <= 200 ->
      forall c, last (sanitize_filename name) = Some c -> is_dot_or_space c = false).
Proof.
  split.
  - intros c. rewrite sanitize_filename_unfold.
    pose proof (truncated_head name c) as H.
    destruct (truncated name); [|exact H].
    intros [= <-]. reflexivity.
  - intros Hlen c. rewrite sanitize_filename_unfold. unfold truncated. cbv zeta.
    apply Nat.ltb_ge in Hlen. rewrite Hlen.
    pose proof (strip_last (lit ". ") (re_sub_invalid name) c) as H.
    destruct (strip _ _); [|exact H].
    intros [= <-]. reflexivity.
Qed.

(** Both ends of the result for [" .a:b. "], which is not cut. *)
Lemma sanitize_filename_trimmed_witness :
  is_dot_or_space 97%N = false /\ is_dot_or_space 98%N = false.
Proof.
  pose proof (sanitize_filename_trimmed (lit " .a:b. ")) as [Hh Hl].
  split.
  - apply Hh. reflexivity.
  - apply Hl; [vm_compute; lia | reflexivity].
Defined.

(** C7 as stated fails: the result for [tab_then_long] starts with a tab,
    which [strip('. ')] does not remove, and ends with the space that the
    cut to 200 characters exposes. *)
Lemma sanitize_filename_untrimmed :
  head (sanitize_filename tab_then_long) = Some 9%N
  /\ last (sanitize_filename tab_then_long) = Some 32%N
  /\ edges_trimmed (sanitize_filename tab_then_long) = false.
Proof. vm_compute. repeat split. Qed.

End Sanitizer.

(** ** The monad *)

Section MonadLemmas.

Context {A B : Type}.

Lemma bind_Ret (m : M A) (k : A -> M B) w a w' :
  m w = (Ret a, w') -> (m ≫= k) w = k a w'.
Proof. intros H. unfold mbind, M_bind, bind. by rewrite H. Qed.

Lemma bind_Ret_inv (m : M A) (k : A -> M B) w b w' :
  (m ≫= k) w = (Ret b, w') ->
  exists a w1, m w = (Ret a, w1) /\ k a w1 = (Ret b, w').
Proof.
  unfold mbind, M_bind, bind.
  destruct (m w) as [[a|e|] w1]; [eauto | discriminate | discriminate].
Qed.

Lemma lift_Ret_inv (o : outcome A) w a w' :
  lift o w = (Ret a, w') -> o = Ret a /\ w' = w.
Proof. unfold lift. intros [= -> ->]. done. Qed.

Lemma bind_lift (o : outcome A) (k : A -> M B) w a :
  o = Ret a -> (lift o ≫= k) w = k a w.
Proof. intros ->. reflexivity. Qed.

End MonadLemmas.

(** ** Retries *)

Section Retries.

Variable net : network.

Lemma retry_pause_run attempt w request :
  when (attempt <? MAX_RETRIES - 1) (sleep RETRY_DELAY) (after_request w request)
  = (Ret tt, after_failure w request attempt).
Proof.
  unfold when, after_failure, after_request, retry_trace, flat_map.
  destruct (attempt <? MAX_RETRIES - 1); unfold sleep, ret; cbn [w_fs w_clock w_trace].
  - by rewrite app_nil_r, <- app_assoc.
  - by rewrite app_nil_r.
Qed.

Lemma get_folder_attempts_step attempt rest folder_id w :
  get_folder_attempts net (attempt :: rest) folder_id w =
  match folder_reply net (w_clock w) folder_id with
  | JOk v => (Ret v, after_request w (EvFolderGet folder_id))
  | JFail | JInvalid =>
      get_folder_attempts net rest folder_id
        (after_failure w (EvFolderGet folder_id) attempt)
  | JRaise e => (Raise e, after_request w (EvFolderGet folder_id))
  end.
Proof.
  cbn [get_folder_attempts]. unfold mbind, M_bind, bind, http_get_json.
  fold (after_request w (EvFolderGet folder_id)).
  destruct (folder_reply net (w_clock w) folder_id);
    [by rewrite retry_pause_run | by rewrite retry_pause_run
     | reflexivity | reflexivity].
Qed.

Lemma retry_trace_cons request attempt rest :
  retry_trace request (attempt :: rest) =
  retry_trace request [attempt] ++ retry_trace request rest.
Proof. unfold retry_trace. simpl. by rewrite app_nil_r. Qed.

Lemma get_folder_attempts_all_fail attempts folder_id w :
  (forall k, k < length attempts ->
     folder_attempt_fails (folder_reply net (w_clock w + k) folder_id) = true) ->
  get_folder_attempts net attempts folder_id w =
  (Ret PNone,
   {| w_fs := w_fs w; w_clock := w_clock w + length attempts;
      w_trace := w_trace w ++ retry_trace (EvFolderGet folder_id) attempts |}).
Proof.
  revert w. induction attempts as [|attempt rest IH]; intros w Hfail.
  - destruct w. cbn. by rewrite Nat.add_0_r, app_nil_r.
  - rewrite get_folder_attempts_step.
    pose proof (Hfail 0 ltac:(cbn; lia)) as H0. rewrite Nat.add_0_r in H0.
    assert (Hrest : forall k, k < length rest ->
              folder_attempt_fails
                (folder_reply net
                   (w_clock (after_failure w (EvFolderGet folder_id) attempt) + k)
                   folder_id) = true).
    { intros k Hk. cbn [after_failure w_clock].
      specialize (Hfail (S k) ltac:(cbn; lia)).
      by rewrite Nat.add_succ_r in Hfail. }
    specialize (IH _ Hrest). rewrite IH.
    cbn [after_failure w_fs w_clock w_trace length].
    rewrite Nat.add_succ_r, (retry_trace_cons _ attempt rest), <- app_assoc.
    destruct (folder_reply net (w_clock w) folder_id);
      [done | done | discriminate | discriminate].
Qed.


End Retries.

(** ** File-system operations *)

Section FileSystem.

Implicit Types (fs : gmap path node) (p : path).

Lemma lookup_node_nonempty fs p : p <> [] -> lookup_node fs p = fs !! p.
Proof. by destruct p. Qed.

Lemma lookup_node_None fs p : lookup_node fs p = None -> p <> [] /\ fs !! p = None.
Proof. destruct p; [discriminate|]. by split. Qed.

Lemma can_open_spec fs p :
  can_open fs p = true ->
  p <> [] /\ lookup_node fs (parent p) = Some Dir /\ fs !! p <> Some Dir.
Proof.
  unfold can_open. intros H. destruct p as [|c p]; [cbn in H; discriminate|].
  destruct (lookup_node fs (parent (c :: p))) as [[]|] eqn:E1; try discriminate.
  cbn [lookup_node] in H.
  destruct (fs !! (c :: p)) as [[]|] eqn:E2; try discriminate; repeat split; congruence.
Qed.

Lemma parent_neq p : p <> [] -> parent p <> p.
Proof.
  intros Hp E. pose proof (@app_removelast_last _ p [] Hp) as H.
  unfold parent in E. rewrite E in H. apply (f_equal length) in H.
  rewrite length_app in H. simpl in H. lia.
Qed.

Lemma can_open_delete fs p : can_open fs p = true -> can_open (delete p fs) p = true.
Proof.
  intros H. destruct (can_open_spec _ _ H) as (Hp & Hpar & _).
  unfold can_open.
  assert (lookup_node (delete p fs) (parent p) = Some Dir) as ->.
  { destruct (parent p) eqn:E; [done|]. cbn [lookup_node] in *.
    rewrite lookup_delete_ne; [done|]. rewrite <- E. intros E'. by eapply parent_neq. }
  rewrite lookup_node_nonempty, lookup_delete_eq; done.
Qed.

Lemma fs_open_wb_run fs p :
  can_open fs p = true -> fs_open_wb fs p = Ret (<[p := File []]> fs).
Proof.
  unfold can_open, fs_open_wb.
  destruct (lookup_node fs (parent p)) as [[]|]; try discriminate.
  destruct (lookup_node fs p) as [[]|]; done.
Qed.

Lemma fs_open_wb_inv fs p fs' :
  fs_open_wb fs p = Ret fs' -> p <> [] /\ fs' = <[p := File []]> fs.
Proof.
  unfold fs_open_wb.
  destruct (lookup_node fs (parent p)) as [[]|]; try discriminate.
  destruct p as [|c p]; [discriminate|]. cbn [lookup_node].
  destruct (fs !! (c :: p)) as [[]|]; intros [= <-]; done.
Qed.

(** Writing the chunks in turn appends their concatenation. *)
Lemma write_all fs p content chunks :
  foldl (fun fs chunk => fs_write fs p chunk) (<[p := File content]> fs) chunks
  = <[p := File (content ++ concat chunks)]> fs.
Proof.
  revert content. induction chunks as [|chunk chunks IH]; intros content.
  - cbn. by rewrite app_nil_r.
  - cbn [foldl concat]. unfold fs_write at 2. rewrite alter_insert_eq, IH.
    by rewrite <- app_assoc.
Qed.

Lemma mkdir1_inv fs p fs' :
  mkdir1 fs p = Ret fs' -> fs ⊆ fs' /\ lookup_node fs' p = Some Dir.
Proof.
  unfold mkdir1. destruct (lookup_node fs p) as [[]|] eqn:E; intros [= <-].
  - done.
  - apply lookup_node_None in E as (Hp & E). split.
    + by apply insert_subseteq.
    + rewrite lookup_node_nonempty by done. apply lookup_insert_eq.
Qed.

Lemma lookup_node_weaken fs fs' p n :
  lookup_node fs p = Some n -> fs ⊆ fs' -> lookup_node fs' p = Some n.
Proof. destruct p; [done|]. cbn [lookup_node]. apply lookup_weaken. Qed.

(** Creating a directory that is already there changes nothing. *)
Lemma mkdir1_again fs p fs' fs2 :
  mkdir1 fs p = Ret fs' -> fs' ⊆ fs2 -> mkdir1 fs2 p = Ret fs2.
Proof.
  intros H Hsub. apply mkdir1_inv in H as (_ & H).
  unfold mkdir1. by rewrite (lookup_node_weaken _ _ _ _ H Hsub).
Qed.

Lemma mkdir_from_inv base todo fs fs' :
  mkdir_from base todo fs = Ret fs' ->
  fs ⊆ fs'
  /\ (lookup_node fs base = Some Dir -> lookup_node fs' (base ++ todo) = Some Dir).
Proof.
  revert base fs. induction todo as [|c todo IH]; intros base fs.
  - intros [= <-]. by rewrite app_nil_r.
  - cbn [mkdir_from]. destruct (mkdir1 fs (base ++ [c])) as [fs1| |] eqn:E1;
      [|discriminate..].
    intros H. apply mkdir1_inv in E1 as (Hsub1 & Hdir1).
    apply IH in H as (Hsub & Hdir). split.
    + by transitivity fs1.
    + intros _. rewrite <- app_assoc in Hdir. by apply Hdir.
Qed.

Lemma mkdir_from_again base todo fs fs' fs2 :
  mkdir_from base todo fs = Ret fs' -> fs' ⊆ fs2 ->
  mkdir_from base todo fs2 = Ret fs2.
Proof.
  revert base fs. induction todo as [|c todo IH]; intros base fs; [done|].
  cbn [mkdir_from]. destruct (mkdir1 fs (base ++ [c])) as [fs1| |] eqn:E1;
    [|discriminate..].
  intros H Hsub. pose proof (mkdir_from_inv _ _ _ _ H) as (Hsub1 & _).
  rewrite (mkdir1_again _ _ _ fs2 E1) by (by transitivity fs').
  by apply (IH _ _ H).
Qed.

Lemma mkdir_parents_inv p w w' :
  mkdir_parents p w = (Ret tt, w') ->
  w_fs w ⊆ w_fs w' /\ lookup_node (w_fs w') p = Some Dir
  /\ w_clock w' = w_clock w /\ w_trace w' = w_trace w.
Proof.
  unfold mkdir_parents, with_fs.
  destruct (mkdir_from [] p (w_fs w)) as [fs'| |] eqn:E; [|discriminate..].
  intros [= <-]. apply mkdir_from_inv in E as (Hsub & Hdir).
  cbn [set_fs w_fs w_clock w_trace]. repeat split; [done | by apply Hdir].
Qed.

Lemma mkdir_parents_again p w w1 w' :
  mkdir_parents p w = (Ret tt, w1) -> w_fs w1 ⊆ w_fs w' ->
  mkdir_parents p w' = (Ret tt, w').
Proof.
  unfold mkdir_parents, with_fs.
  destruct (mkdir_from [] p (w_fs w)) as [fs'| |] eqn:E; [|discriminate..].
  intros [= <-] Hsub. cbn [set_fs w_fs] in Hsub.
  rewrite (mkdir_from_again _ _ _ _ _ E Hsub). by destruct w'.
Qed.

End FileSystem.

(** ** download_file *)

Section Download.

Variable net : network.

Lemma cleanup_run save_path w :
  cleanup save_path w =
  match lookup_node (w_fs w) save_path with
  | None => (Ret tt, w)
  | Some (File _) => (Ret tt, set_fs w (delete save_path (w_fs w)))
  | Some Dir => (Raise OSError, w)
  end.
Proof.
  unfold cleanup, mbind, M_bind, bind, path_exists, when, unlink, with_fs, fs_unlink.
  destruct (lookup_node (w_fs w) save_path) as [[]|] eqn:E;
    cbv beta iota; rewrite ?E; reflexivity.
Qed.

(** After [cleanup] returns, nothing is left at the path. *)
Lemma cleanup_removes save_path w w1 :
  cleanup save_path w = (Ret tt, w1) ->
  lookup_node (w_fs w1) save_path = None
  /\ w_clock w1 = w_clock w /\ w_trace w1 = w_trace w.
Proof.
  rewrite cleanup_run.
  destruct (lookup_node (w_fs w) save_path) as [[]|] eqn:E; intros [= <-].
  - destruct save_path as [|c p]; [discriminate|]. cbn [lookup_node set_fs w_fs].
    by rewrite lookup_delete_eq.
  - done.
Qed.

Lemma pause_inv attempt w w1 :
  when (attempt <? MAX_RETRIES - 1) (sleep RETRY_DELAY) w = (Ret tt, w1) ->
  w_fs w1 = w_fs w.
Proof.
  unfold when. destruct (attempt <? MAX_RETRIES - 1); intros [= <-]; reflexivity.
Qed.

(** The handler's tail: delay, cleanup, remaining attempts. *)
Lemma handler_false (k : M bool) attempt save_path w w' :
  (forall w1, lookup_node (w_fs w1) save_path = None ->
     k w1 = (Ret false, w') -> lookup_node (w_fs w') save_path = None) ->
  (when (attempt <? MAX_RETRIES - 1) (sleep RETRY_DELAY);;
   cleanup save_path;; k) w = (Ret false, w') ->
  lookup_node (w_fs w') save_path = None.
Proof.
  intros Hk H.
  apply bind_Ret_inv in H as ([] & w1 & _ & H).
  apply bind_Ret_inv in H as ([] & w2 & Hclean & H).
  apply cleanup_removes in Hclean as (Hgone & _).
  by apply (Hk w2).
Qed.

Lemma download_attempts_false attempts file_path save_path w w' :
  download_attempts net attempts file_path save_path w = (Ret false, w') ->
  attempts <> [] \/ lookup_node (w_fs w) save_path = None ->
  lookup_node (w_fs w') save_path = None.
Proof.
  revert w. induction attempts as [|attempt rest IH]; intros w H Hcase.
  - injection H as <-. by destruct Hcase.
  - clear Hcase. cbn [download_attempts] in H.
    apply bind_Ret_inv in H as (r & w1 & _ & H).
    destruct r as [|chunks complete].
    + eapply handler_false; [|exact H]. intros w2 Hgone Hrest.
      apply (IH w2 Hrest). by right.
    + apply bind_Ret_inv in H as ([] & w2 & _ & H).
      apply bind_Ret_inv in H as ([] & w3 & _ & H).
      destruct complete; [discriminate|].
      eapply handler_false; [|exact H]. intros w4 Hgone Hrest.
      apply (IH w4 Hrest). by right.
Qed.

(** One failed attempt: the request, then the delay unless it was the last
    attempt, and nothing left at the destination. *)
Lemma download_attempts_fail_step attempt rest file_path save_path w :
  can_open (w_fs w) save_path = true ->
  stream_attempt_fails (file_reply net (w_clock w) file_path) = true ->
  download_attempts net (attempt :: rest) file_path save_path w =
  download_attempts net rest file_path save_path
    (set_fs (after_failure w (EvFileGet file_path) attempt)
       (delete save_path (w_fs w))).
Proof.
  intros Hopen Hfail. destruct (can_open_spec _ _ Hopen) as (Hp & Hpar & Hnd).
  cbn [download_attempts]. unfold mbind, M_bind, bind, http_get_stream.
  fold (after_request w (EvFileGet file_path)).
  destruct (file_reply net (w_clock w) file_path) as [|chunks complete].
  - rewrite retry_pause_run, cleanup_run. cbn [after_failure w_fs].
    rewrite lookup_node_nonempty by done.
    destruct (w_fs w !! save_path) as [[]|] eqn:E; [reflexivity | done |].
    rewrite delete_id by done. by destruct w.
  - destruct complete; [discriminate|].
    unfold open_wb, write_chunks, with_fs. cbn [after_request w_fs].
    rewrite fs_open_wb_run by done. cbn [set_fs w_fs].
    rewrite write_all.
    change (set_fs (set_fs ?a ?b) ?c) with (set_fs a c).
    pose proof (retry_pause_run attempt
      (set_fs w (<[save_path:=File ([] ++ concat chunks)]> (w_fs w)))
      (EvFileGet file_path)) as Hp'.
    unfold after_request, set_fs in *. cbn [w_fs w_clock w_trace] in *.
    rewrite Hp'. rewrite cleanup_run. unfold after_failure. cbn [w_fs w_clock w_trace].
    rewrite lookup_node_nonempty, lookup_insert_eq by done.
    unfold set_fs. cbn [w_fs w_clock w_trace]. by rewrite delete_insert_eq.
Qed.

Lemma download_attempts_all_fail attempts file_path save_path w :
  can_open (w_fs w) save_path = true ->
  (forall k, k < length attempts ->
     stream_attempt_fails (file_reply net (w_clock w + k) file_path) = true) ->
  download_attempts net attempts file_path save_path w =
  (Ret false,
   {| w_fs := match attempts with [] => w_fs w | _ => delete save_path (w_fs w) end;
      w_clock := w_clock w + length attempts;
      w_trace := w_trace w ++ retry_trace (EvFileGet file_path) attempts |}).
Proof.
  revert w. induction attempts as [|attempt rest IH]; intros w Hopen Hfail.
  - destruct w. cbn. by rewrite Nat.add_0_r, app_nil_r.
  - rewrite download_attempts_fail_step; [|done|].
    2:{ specialize (Hfail 0 ltac:(cbn; lia)). by rewrite Nat.add_0_r in Hfail. }
    rewrite IH.
    + cbn [set_fs after_failure w_fs w_clock w_trace length].
      rewrite Nat.add_succ_r, (retry_trace_cons _ attempt rest), <- app_assoc.
      rewrite delete_delete_eq. by destruct rest.
    + cbn [set_fs w_fs]. by apply can_open_delete.
    + intros k Hk. cbn [set_fs after_failure w_clock].
      specialize (Hfail (S k) ltac:(cbn; lia)).
      by rewrite Nat.add_succ_r in Hfail.
Qed.

Lemma http_get_stream_inv file_path w r w1 :
  http_get_stream net file_path w = (Ret r, w1) -> w_fs w1 = w_fs w.
Proof. unfold http_get_stream. by intros [= <- <-]. Qed.

Lemma open_wb_inv p w w1 :
  open_wb p w = (Ret tt, w1) -> p <> [] /\ w_fs w1 = <[p := File []]> (w_fs w).
Proof.
  unfold open_wb, with_fs.
  destruct (fs_open_wb (w_fs w) p) as [fs1| |] eqn:E; [|discriminate..].
  intros [= <-]. by apply fs_open_wb_inv in E.
Qed.

Lemma write_chunks_inv p chunks w w1 :
  write_chunks p chunks w = (Ret tt, w1) ->
  w_fs w1 = foldl (fun fs chunk => fs_write fs p chunk) (w_fs w) chunks.
Proof. unfold write_chunks, with_fs. by intros [= <-]. Qed.

(** A download to a path where nothing exists either adds the file there
    or leaves the file system as it was. *)
Lemma download_attempts_fresh attempts file_path save_path w b w' :
  lookup_node (w_fs w) save_path = None ->
  download_attempts net attempts file_path save_path w = (Ret b, w') ->
  if b then exists content, w_fs w' = <[save_path := File content]> (w_fs w)
  else w_fs w' = w_fs w.
Proof.
  revert w. induction attempts as [|attempt rest IH]; intros w Hnone H.
  - by injection H as <- <-.
  - pose proof (lookup_node_None _ _ Hnone) as (Hp & Hnone').
    assert (Hhandler : forall w2,
      (w_fs w2 = w_fs w \/ exists c, w_fs w2 = <[save_path := File c]> (w_fs w)) ->
      (when (attempt <? MAX_RETRIES - 1) (sleep RETRY_DELAY);;
       cleanup save_path;;
       download_attempts net rest file_path save_path) w2 = (Ret b, w') ->
      if b then exists content, w_fs w' = <[save_path := File content]> (w_fs w)
      else w_fs w' = w_fs w).
    { intros w2 Hw2 Hh.
      apply bind_Ret_inv in Hh as ([] & w3 & Hpause & Hh).
      apply pause_inv in Hpause.
      apply bind_Ret_inv in Hh as ([] & w4 & Hclean & Hh).
      rewrite cleanup_run, Hpause in Hclean.
      assert (w_fs w4 = w_fs w) as Hw4.
      { destruct Hw2 as [E | [c E]]; rewrite E in Hclean.
        - rewrite Hnone in Hclean. injection Hclean as <-. congruence.
        - rewrite lookup_node_nonempty, lookup_insert_eq in Hclean by done.
          injection Hclean as <-. cbn [set_fs w_fs].
          by rewrite delete_insert_id. }
      specialize (IH w4). rewrite Hw4 in IH. by apply IH. }
    cbn [download_attempts] in H.
    apply bind_Ret_inv in H as (r & w1 & Hget & H).
    apply http_get_stream_inv in Hget.
    destruct r as [|chunks complete].
    + apply (Hhandler w1); [by left | exact H].
    + apply bind_Ret_inv in H as ([] & w2 & Hopen & H).
      apply open_wb_inv in Hopen as (_ & Hopen).
      apply bind_Ret_inv in H as ([] & w3 & Hwrite & H).
      apply write_chunks_inv in Hwrite.
      rewrite Hopen, Hget, write_all in Hwrite.
      destruct complete.
      * injection H as <- <-. by eexists.
      * apply (Hhandler w3); [right; by eexists | exact H].
Qed.

End Download.

(** ** Retry bound and partial-write cleanup *)

Section RetryClaims.

Variable net : network.

(** C3: whenever [download_file] returns [False], nothing exists at the
    destination path: each failed attempt, also one that had written bytes,
    ends with the removal of what it wrote. *)
Theorem download_file_failure_leaves_no_file file_path save_path w w' :
  download_file net file_path save_path w = (Ret false, w') ->
  lookup_node (w_fs w') save_path = None.
Proof.
  intros H. apply (download_attempts_false _ _ _ _ _ _ H).
  left. discriminate.
Qed.

(** C4: when each of the [MAX_RETRIES] attempts fails with a request
    error, [get_folder_data] and [download_file] send exactly three
    requests, sleep [RETRY_DELAY] between them and not after the third, and
    return [None] and [False]. *)
Theorem retry_bound folder_id file_path save_path w :
  ((forall k, k < MAX_RETRIES ->
      folder_attempt_fails (folder_reply net (w_clock w + k) folder_id) = true) ->
   get_folder_data net folder_id w =
   (Ret PNone,
    {| w_fs := w_fs w; w_clock := w_clock w + 3;
       w_trace := w_trace w ++
         [EvFolderGet folder_id; EvSleep RETRY_DELAY;
          EvFolderGet folder_id; EvSleep RETRY_DELAY;
          EvFolderGet folder_id] |}))
  /\ ((forall k, k < MAX_RETRIES ->
        stream_attempt_fails (file_reply net (w_clock w + k) file_path) = true) ->
      can_open (w_fs w) save_path = true ->
      download_file net file_path save_path w =
      (Ret false,
       {| w_fs := delete save_path (w_fs w); w_clock := w_clock w + 3;
          w_trace := w_trace w ++
            [EvFileGet file_path; EvSleep RETRY_DELAY;
             EvFileGet file_path; EvSleep RETRY_DELAY;
             EvFileGet file_path] |})).
Proof.
  split.
  - intros Hfail. unfold get_folder_data.
    by rewrite get_folder_attempts_all_fail.
  - intros Hfail Hopen. unfold download_file.
    by rewrite download_attempts_all_fail.
Qed.

End RetryClaims.

(** Three attempts that each break after three bytes were written: the
    destination holds nothing at the end. *)
Lemma download_file_failure_leaves_no_file_witness :
  lookup_node
    (w_fs (snd (download_file net_broken_stream (PStr (lit "doc/a.pdf"))
                  [lit "laws"; lit "a.pdf"] w_laws)))
    [lit "laws"; lit "a.pdf"] = None.
Proof.
  apply (download_file_failure_leaves_no_file net_broken_stream
           (PStr (lit "doc/a.pdf")) [lit "laws"; lit "a.pdf"] w_laws).
  vm_compute. reflexivity.
Defined.

(** A service that is down, and one whose streams break. *)
Lemma retry_bound_witness :
  get_folder_data net_down (PInt 5) w_empty =
  (Ret PNone,
   {| w_fs := ∅; w_clock := 3;
      w_trace := [EvFolderGet (PInt 5); EvSleep RETRY_DELAY;
                  EvFolderGet (PInt 5); EvSleep RETRY_DELAY;
                  EvFolderGet (PInt 5)] |})
  /\ fst (download_file net_broken_stream (PStr (lit "doc/a.pdf"))
            [lit "laws"; lit "a.pdf"] w_laws) = Ret false.
Proof.
  split.
  - apply (proj1 (retry_bound net_down (PInt 5) PNone [] w_empty)).
    intros k _. reflexivity.
  - rewrite (proj2 (retry_bound net_broken_stream PNone (PStr (lit "doc/a.pdf"))
                      [lit "laws"; lit "a.pdf"] w_laws)).
    + reflexivity.
    + intros k _. reflexivity.
    + vm_compute. reflexivity.
Defined.

(** ** The tree walker *)

Section Walker.

Variable fmt : pyval -> str.
Variable unquote : str -> str.
Variable net : network.

Lemma get_folder_attempts_effects attempts folder_id w v w1 :
  get_folder_attempts net attempts folder_id w = (Ret v, w1) ->
  w_fs w1 = w_fs w
  /\ exists evs, w_trace w1 = w_trace w ++ evs
               /\ Forall (fun e => is_file_get e = false) evs.
Proof.
  revert w. induction attempts as [|attempt rest IH]; intros w.
  - intros [= <- <-]. split; [done|]. exists []. by rewrite app_nil_r.
  - rewrite get_folder_attempts_step.
    assert (Hfail :
      get_folder_attempts net rest folder_id
        (after_failure w (EvFolderGet folder_id) attempt) = (Ret v, w1) ->
      w_fs w1 = w_fs w
      /\ exists evs, w_trace w1 = w_trace w ++ evs
                   /\ Forall (fun e => is_file_get e = false) evs).
    { intros H. apply IH in H as (Hfs & evs & Htr & Hevs). split; [exact Hfs|].
      exists (retry_trace (EvFolderGet folder_id) [attempt] ++ evs).
      cbn [after_failure w_trace] in Htr. rewrite Htr, <- app_assoc.
      split; [done|]. apply Forall_app. split; [|exact Hevs].
      unfold retry_trace. cbn [flat_map].
      destruct (attempt <? MAX_RETRIES - 1); repeat constructor. }
    destruct (folder_reply net (w_clock w) folder_id);
      [exact Hfail | exact Hfail | | discriminate].
    intros [= <- <-]. split; [done|].
    exists [EvFolderGet folder_id]. split; [done|]. repeat constructor.
Qed.

(** C10: a file entry whose [path] is absent or empty is skipped: the loop
    goes on with the next entry in the same state and with the same
    counters, whatever the entry's [name]. *)
Theorem file_without_path_skipped kvs rest current_path downloaded failed w :
  assoc (lit "path") kvs = None \/ assoc (lit "path") kvs = Some (PStr []) ->
  process_files unquote net (PDict kvs :: rest) current_path downloaded failed w
  = process_files unquote net rest current_path downloaded failed w.
Proof.
  intros H. cbn [process_files].
  unfold mbind, M_bind, bind, lift, py_get.
  destruct H as [-> | ->]; reflexivity.
Qed.

(** C5: when the fetch of a folder returns no data, [process_folder]
    returns (0, 0) in the state the fetch left: no file of the folder is
    requested and the file system is untouched; and in the loop over
    subfolders the next sibling is processed from that state with the
    counters unchanged. *)
Theorem failed_fetch_skips_subtree :
  (forall fuel folder_id current_path w w1,
     get_folder_data net folder_id w = (Ret PNone, w1) ->
     process_folder fmt unquote net (S fuel) folder_id current_path w
       = (Ret (0, 0), w1)
     /\ w_fs w1 = w_fs w
     /\ exists evs, w_trace w1 = w_trace w ++ evs
                  /\ Forall (fun e => is_file_get e = false) evs)
  /\ (forall fuel kvs rest current_path downloaded failed w
             subfolder_id subfolder_name w1 w2,
        assoc (lit "id") kvs = Some subfolder_id ->
        subfolder_id <> PNone ->
        py_get (PDict kvs) (lit "name") (PStr (lit "folder_" ++ fmt subfolder_id))
          = Ret (PStr subfolder_name) ->
        mkdir_parents (current_path ++ [sanitize_filename subfolder_name]) w
          = (Ret tt, w1) ->
        get_folder_data net subfolder_id w1 = (Ret PNone, w2) ->
        process_subfolders fmt (process_folder fmt unquote net (S fuel))
          (PDict kvs :: rest) current_path downloaded failed w
        = process_subfolders fmt (process_folder fmt unquote net (S fuel))
            rest current_path downloaded failed w2).
Proof.
  split.
  - intros fuel folder_id current_path w w1 H. split.
    + cbn [process_folder]. by rewrite (bind_Ret _ _ _ _ _ H).
    + by apply get_folder_attempts_effects in H.
  - intros fuel kvs rest current_path downloaded failed w
      subfolder_id subfolder_name w1 w2 Hid Hne Hname Hdir Hfetch.
    assert (Hid' : py_get (PDict kvs) (lit "id") PNone = Ret subfolder_id)
      by (cbn [py_get]; by rewrite Hid).
    cbn [process_subfolders].
    unfold mbind at 1, M_bind at 1, bind at 1, lift at 1.
    rewrite Hid'.
    unfold mbind at 1, M_bind at 1, bind at 1, lift at 1.
    rewrite Hname.
    assert (Hgo :
      (safe_folder_name ← lift (py_sanitize (PStr subfolder_name));
       mkdir_parents (current_path ++ [safe_folder_name]);;
       sub ← process_folder fmt unquote net (S fuel) subfolder_id
               (current_path ++ [safe_folder_name]);
       process_subfolders fmt (process_folder fmt unquote net (S fuel))
         rest current_path (downloaded + fst sub) (failed + snd sub)) w
      = process_subfolders fmt (process_folder fmt unquote net (S fuel))
          rest current_path downloaded failed w2).
    { unfold mbind at 1, M_bind at 1, bind at 1, lift at 1. cbn [py_sanitize].
      rewrite (bind_Ret _ _ _ _ _ Hdir).
      cbn [process_folder]. unfold get_folder_data in Hfetch.
      unfold mbind at 1, M_bind at 1, bind at 1.
      unfold mbind at 1, M_bind at 1, bind at 1.
      unfold get_folder_data. rewrite Hfetch.
      unfold mret, M_ret, ret. cbn [fst snd].
      by rewrite !Nat.add_0_r. }
    destruct subfolder_id; [done | exact Hgo ..].
Qed.

(** C6, amended: for a root id whose fetch returns no data the run
    controller creates no directory and goes on with the next root in the
    state the fetch left; for a root whose fetch returns an object it creates
    the directory named by the sanitized [name], or by the sanitized
    fallback [resources_<id>] when the object has no [name], and then runs
    [process_folder] on that id and path. *)
Theorem root_directory_follows_fetch :
  (forall fuel root_id rest total_downloaded total_failed w w1,
     get_folder_data net root_id w = (Ret PNone, w1) ->
     main_loop fmt unquote net fuel (root_id :: rest) total_downloaded total_failed w
       = main_loop fmt unquote net fuel rest total_downloaded total_failed w1
     /\ w_fs w1 = w_fs w)
  /\ (forall fuel root_id rest total_downloaded total_failed w w1 w2 kvs root_name,
        get_folder_data net root_id w = (Ret (PDict kvs), w1) ->
        py_get (PDict kvs) (lit "name") (PStr (lit "resources_" ++ fmt root_id))
          = Ret (PStr root_name) ->
        mkdir_parents (OUTPUT_DIR ++ [sanitize_filename root_name]) w1
          = (Ret tt, w2) ->
        w_fs w2 !! (OUTPUT_DIR ++ [sanitize_filename root_name]) = Some Dir
        /\ main_loop fmt unquote net fuel (root_id :: rest)
             total_downloaded total_failed w
           = (counts ← process_folder fmt unquote net fuel root_id
                         (OUTPUT_DIR ++ [sanitize_filename root_name]);
              main_loop fmt unquote net fuel rest
                (total_downloaded + fst counts) (total_failed + snd counts)) w2).
Proof.
  split.
  - intros fuel root_id rest td tf w w1 H. split.
    + cbn [main_loop]. by rewrite (bind_Ret _ _ _ _ _ H).
    + by apply get_folder_attempts_effects in H as (H & _).
  - intros fuel root_id rest td tf w w1 w2 kvs root_name Hfetch Hname Hdir.
    split.
    + by apply mkdir_parents_inv in Hdir as (_ & Hdir & _).
    + cbn [main_loop]. rewrite (bind_Ret _ _ _ _ _ Hfetch).
      unfold mbind at 1, M_bind at 1, bind at 1, lift at 1. rewrite Hname.
      unfold mbind at 1, M_bind at 1, bind at 1, lift at 1. cbn [py_sanitize].
      by rewrite (bind_Ret _ _ _ _ _ Hdir).
Qed.


End Walker.

(** An entry with a name and no path. *)
Lemma file_without_path_skipped_witness :
  process_files unquote_plain net_down
    [dict [("name", PStr (lit "Law A.pdf"))]] [lit "laws"] 0 0 w_laws
  = (Ret (0, 0), w_laws).
Proof.
  unfold dict. cbn [List.map fst snd].
  rewrite file_without_path_skipped; [reflexivity | left; reflexivity].
Defined.

(** A folder that cannot be fetched; and, in the scenario, the sibling 99
    of the failing folder 5 is walked and its file counted. *)
Lemma failed_fetch_skips_subtree_witness :
  process_folder fmt_scalar unquote_plain net_down 1 (PInt 5) [lit "laws"] w_laws
  = (Ret (0, 0), snd (get_folder_data net_down (PInt 5) w_laws))
  /\ fst (process_subfolders fmt_scalar
            (process_folder fmt_scalar unquote_plain net_scenario 1)
            [dict [("id", PInt 5); ("name", PStr (lit "Broken"))];
             dict [("id", PInt 99); ("name", PStr (lit "Civil Code"))]]
            [lit "laws"] 0 0 w_laws) = Ret (1, 0).
Proof.
  pose proof (failed_fetch_skips_subtree fmt_scalar unquote_plain net_down)
    as [Hone _].
  pose proof (failed_fetch_skips_subtree fmt_scalar unquote_plain net_scenario)
    as [_ Hsib].
  split.
  - apply Hone. vm_compute. reflexivity.
  - unfold dict. cbn [List.map fst snd].
    rewrite (Hsib 0 _ _ [lit "laws"] 0 0 w_laws (PInt 5) (lit "Broken")
               (snd (mkdir_parents [lit "laws"; lit "Broken"] w_laws))
               (snd (get_folder_data net_scenario (PInt 5)
                       (snd (mkdir_parents [lit "laws"; lit "Broken"] w_laws))))).
    + vm_compute. reflexivity.
    + reflexivity.
    + discriminate.
    + reflexivity.
    + vm_compute. reflexivity.
    + vm_compute. reflexivity.
Defined.

(** C6 as stated fails: when every fetch fails the run ends normally and
    the only directory it made is [laws]; no top-level directory, under a
    fallback name or any other, exists for root 12 or root 569. *)
Lemma failed_root_gets_no_directory :
  fst (main fmt_scalar unquote_plain net_down 1 w_empty) = Ret (0, 0)
  /\ map_to_list (w_fs (snd (main fmt_scalar unquote_plain net_down 1 w_empty)))
     = [(OUTPUT_DIR, Dir)].
Proof. vm_compute. split; reflexivity. Qed.

(** Root 12 against a service that is down, and in the scenario. *)
Lemma root_directory_follows_fetch_witness :
  fst (main_loop fmt_scalar unquote_plain net_down 1 [PInt 12] 0 0 w_laws)
    = Ret (0, 0)
  /\ w_fs (snd (mkdir_parents [lit "laws"; lit "Laws"]
                  (snd (get_folder_data net_scenario (PInt 12) w_laws))))
       !! [lit "laws"; lit "Laws"] = Some Dir.
Proof.
  pose proof (root_directory_follows_fetch fmt_scalar unquote_plain net_down)
    as [Hfail _].
  pose proof (root_directory_follows_fetch fmt_scalar unquote_plain net_scenario)
    as [_ Hok].
  split.
  - rewrite (proj1 (Hfail 1 (PInt 12) [] 0 0 w_laws
                      (snd (get_folder_data net_down (PInt 12) w_laws))
                      ltac:(vm_compute; reflexivity))).
    reflexivity.
  - refine (proj1 (Hok 1 (PInt 12) [] 0 0 w_laws _ _ _ (lit "Laws") _ _ _)).
    + vm_compute. reflexivity.
    + vm_compute. reflexivity.
    + vm_compute. reflexivity.
Defined.


(** A body whose parsing raises [RecursionError]: the exception leaves
    [get_folder_data] after one request, without retry, and ends the run. *)
Example deep_json_escapes :
  get_folder_data net_deep_json (PInt 12) w_empty
    = (Raise RecursionError, after_request w_empty (EvFolderGet (PInt 12)))
  /\ fst (main fmt_scalar unquote_plain net_deep_json 1 w_empty)
     = Raise RecursionError.
Proof. vm_compute. split; reflexivity. Qed.


(** The spec's scenario: after the run, [laws/Laws/Civil Code/Law A.pdf]
    holds the downloaded bytes; one file is counted, none failed. *)
Example scenario_civil_code :
  fst (main fmt_scalar unquote_plain net_scenario 2 w_empty) = Ret (1, 0)
  /\ w_fs (snd (main fmt_scalar unquote_plain net_scenario 2 w_empty))
       !! [lit "laws"; lit "Laws"; lit "Civil Code"; lit "Law A.pdf"]
     = Some (File [37; 80; 68; 70]%N).
Proof. vm_compute. split; reflexivity. Qed.

Lemma endswith_app (s suffix : str) : endswith (s ++ suffix) suffix = true.
Proof.
  unfold endswith. rewrite length_app.
  replace (length s + length suffix - length suffix) with (length s) by lia.
  rewrite drop_app_length. unfold str_eqb. rewrite bool_decide_eq_true_2 by done.
  apply Nat.leb_le. lia.
Qed.


(** C1 at a 200-character name without extension: [.pdf] is appended and
    then cut off again by the sanitizer, so the file is saved under a name
    that does not end in [.pdf]; and the name [.] becomes [pdf]. *)
Theorem long_name_loses_extension (unquote : str -> str) (file_path : pyval) :
  safe_file_name unquote file_path (PStr long_name) = Ret long_name
  /\ endswith (lower long_name) (lit ".pdf") = false
  /\ safe_file_name unquote file_path (PStr (lit ".")) = Ret (lit "pdf")
  /\ endswith (lower (lit "pdf")) (lit ".pdf") = false.
Proof. repeat split; vm_compute; reflexivity. Qed.

(** ** Running the walk again *)

Section Idempotence.

Variable fmt : pyval -> str.
Variable unquote : str -> str.
Variable net : network.

Lemma quiet_refl w : quiet w w.
Proof. exists []. by rewrite app_nil_r. Qed.

Lemma quiet_trans w1 w2 w3 : quiet w1 w2 -> quiet w2 w3 -> quiet w1 w3.
Proof.
  intros (e1 & H1 & F1) (e2 & H2 & F2). exists (e1 ++ e2).
  rewrite H2, H1, <- app_assoc. split; [done | by apply Forall_app].
Qed.

Lemma path_exists_inv p w ex w1 :
  path_exists p w = (Ret ex, w1) ->
  w1 = w /\ ex = match lookup_node (w_fs w) p with Some _ => true | None => false end.
Proof. unfold path_exists. by intros [= <- <-]. Qed.

Lemma sleep_inv seconds w w1 :
  sleep seconds w = (Ret tt, w1) -> w_fs w1 = w_fs w.
Proof. unfold sleep. by intros [= <-]. Qed.

(** The files loop only adds files and only raises the counters. *)
Lemma process_files_mono files current_path downloaded failed w r w' :
  process_files unquote net files current_path downloaded failed w = (Ret r, w') ->
  w_fs w ⊆ w_fs w' /\ downloaded <= fst r /\ failed <= snd r.
Proof.
  revert downloaded failed w.
  induction files as [|file_info rest IH]; intros downloaded failed w H.
  - by injection H as <- <-.
  - cbn [process_files] in H.
    apply bind_Ret_inv in H as (file_path & ? & Hp & H).
    apply lift_Ret_inv in Hp as (Hp & ->).
    apply bind_Ret_inv in H as (file_name & ? & Hn & H).
    apply lift_Ret_inv in Hn as (Hn & ->).
    destruct (truthy file_path); cbn [negb] in H; [|by apply IH in H].
    apply bind_Ret_inv in H as (safe_name & ? & Hs & H).
    apply lift_Ret_inv in Hs as (Hs & ->).
    apply bind_Ret_inv in H as (ex & ? & Hex & H).
    apply path_exists_inv in Hex as (-> & Hex).
    destruct ex.
    { apply IH in H as (? & ? & ?). split; [done | lia]. }
    destruct (lookup_node (w_fs w) (current_path ++ [safe_name])) eqn:Hnone;
      [discriminate|].
    apply bind_Ret_inv in H as (ok & w2 & Hd & H).
    apply (download_attempts_fresh _ _ _ _ _ _ _ Hnone) in Hd.
    apply bind_Ret_inv in H as ([] & w3 & Hsl & H).
    apply sleep_inv in Hsl.
    apply lookup_node_None in Hnone as (_ & Hnone).
    destruct ok; apply IH in H as (Hsub & ? & ?); rewrite Hsl in Hsub.
    + destruct Hd as [content Hd]. split; [|lia].
      transitivity (w_fs w2); [|done]. rewrite Hd. by apply insert_subseteq.
    + split; [by rewrite <- Hd | lia].
Qed.

(** A files loop that ended without a failure, run again in a file system
    that still holds what it left, skips every entry: it changes nothing
    and counts the same number of files. *)
Lemma process_files_replay files current_path downloaded failed w d' w' :
  process_files unquote net files current_path downloaded failed w
    = (Ret (d', failed), w') ->
  forall w2 downloaded2 failed2,
    w_fs w' ⊆ w_fs w2 ->
    process_files unquote net files current_path downloaded2 failed2 w2
      = (Ret (downloaded2 + (d' - downloaded), failed2), w2).
Proof.
  revert downloaded w.
  induction files as [|file_info rest IH]; intros downloaded w H w2 d2 f2 Hsub.
  - injection H as <- <-. cbn. by rewrite Nat.sub_diag, Nat.add_0_r.
  - cbn [process_files] in H |- *.
    apply bind_Ret_inv in H as (file_path & ? & Hp & H).
    apply lift_Ret_inv in Hp as (Hp & ->).
    apply bind_Ret_inv in H as (file_name & ? & Hn & H).
    apply lift_Ret_inv in Hn as (Hn & ->).
    rewrite (bind_lift _ _ _ _ Hp), (bind_lift _ _ _ _ Hn).
    destruct (truthy file_path); cbn [negb] in H |- *; [|by apply (IH _ _ H)].
    apply bind_Ret_inv in H as (safe_name & ? & Hs & H).
    apply lift_Ret_inv in Hs as (Hs & ->).
    rewrite (bind_lift _ _ _ _ Hs).
    apply bind_Ret_inv in H as (ex & ? & Hex & H).
    apply path_exists_inv in Hex as (-> & Hex).
    (* in both cases the entry's file exists where the rest of the first
       run started, hence at the end of it, hence in [w2] *)
    assert (Hskip : forall w1 n,
      lookup_node (w_fs w1) (current_path ++ [safe_name]) = Some n ->
      process_files unquote net rest current_path (S downloaded) failed w1
        = (Ret (d', failed), w') ->
      (ex ← path_exists (current_path ++ [safe_name]);
       if (ex : bool)
       then process_files unquote net rest current_path (S d2) f2
       else ok ← download_file net file_path (current_path ++ [safe_name]);
            sleep DOWNLOAD_DELAY;;
            if (ok : bool)
            then process_files unquote net rest current_path (S d2) f2
            else process_files unquote net rest current_path d2 (S f2)) w2
      = (Ret (d2 + (d' - downloaded), f2), w2)).
    { intros w1 n Hn1 Hrest.
      pose proof (process_files_mono _ _ _ _ _ _ _ Hrest) as (Hsub1 & Hle & _).
      cbn [fst] in Hle.
      assert (lookup_node (w_fs w2) (current_path ++ [safe_name]) = Some n) as Hn2.
      { eapply lookup_node_weaken; [exact Hn1 | by transitivity (w_fs w')]. }
      unfold mbind at 1, M_bind at 1, bind at 1, path_exists at 1. rewrite Hn2.
      rewrite (IH _ _ Hrest w2 (S d2) f2 Hsub). do 3 f_equal. lia. }
    destruct ex.
    { destruct (lookup_node (w_fs w) (current_path ++ [safe_name])) as [n|] eqn:Hn1;
        [|discriminate].
      by apply (Hskip w n). }
    destruct (lookup_node (w_fs w) (current_path ++ [safe_name])) eqn:Hnone;
      [discriminate|].
    apply bind_Ret_inv in H as (ok & w3 & Hd & H).
    apply (download_attempts_fresh _ _ _ _ _ _ _ Hnone) in Hd.
    apply bind_Ret_inv in H as ([] & w4 & Hsl & H).
    apply sleep_inv in Hsl.
    apply lookup_node_None in Hnone as (Hne & _).
    destruct ok.
    + destruct Hd as [content Hd].
      apply (Hskip w4 (File content)); [|exact H].
      rewrite Hsl, Hd, lookup_node_nonempty by done. apply lookup_insert_eq.
    + apply process_files_mono in H as (_ & _ & Hle). cbn [snd] in Hle. lia.
Qed.

Section Subfolders.

(** The loop over subfolders, for any [recurse] that only adds files and
    that repeats a run without failure quietly. *)
Variable recurse : pyval -> path -> M (nat * nat).

Hypothesis recurse_mono : forall folder_id p w r w',
  recurse folder_id p w = (Ret r, w') -> w_fs w ⊆ w_fs w'.

Lemma process_subfolders_mono folders current_path downloaded failed w r w' :
  process_subfolders fmt recurse folders current_path downloaded failed w
    = (Ret r, w') ->
  w_fs w ⊆ w_fs w' /\ downloaded <= fst r /\ failed <= snd r.
Proof.
  revert downloaded failed w.
  induction folders as [|subfolder rest IH]; intros downloaded failed w H.
  - by injection H as <- <-.
  - cbn [process_subfolders] in H.
    apply bind_Ret_inv in H as (subfolder_id & ? & Hid & H).
    apply lift_Ret_inv in Hid as (Hid & ->).
    apply bind_Ret_inv in H as (subfolder_name & ? & Hname & H).
    apply lift_Ret_inv in Hname as (Hname & ->).
    assert (Hgo :
      (safe_folder_name ← lift (py_sanitize subfolder_name);
       mkdir_parents (current_path ++ [safe_folder_name]);;
       sub ← recurse subfolder_id (current_path ++ [safe_folder_name]);
       process_subfolders fmt recurse rest current_path
         (downloaded + fst sub) (failed + snd sub)) w = (Ret r, w') ->
      w_fs w ⊆ w_fs w' /\ downloaded <= fst r /\ failed <= snd r).
    { clear H. intros H.
      apply bind_Ret_inv in H as (safe_folder_name & ? & Hs & H).
      apply lift_Ret_inv in Hs as (Hs & ->).
      apply bind_Ret_inv in H as ([] & w1 & Hdir & H).
      apply mkdir_parents_inv in Hdir as (Hsub1 & _).
      apply bind_Ret_inv in H as (sub & w2 & Hrec & H).
      apply recurse_mono in Hrec.
      apply IH in H as (Hsub3 & ? & ?).
      split; [|lia]. transitivity (w_fs w1); [done|]. by transitivity (w_fs w2). }
    destruct subfolder_id; [by apply IH in H | by apply Hgo ..].
Qed.

Hypothesis recurse_replay : forall folder_id p w d w',
  recurse folder_id p w = (Ret (d, 0), w') ->
  forall w2, w_fs w' ⊆ w_fs w2 ->
  exists w2', recurse folder_id p w2 = (Ret (d, 0), w2')
              /\ w_fs w2' = w_fs w2 /\ quiet w2 w2'.

Lemma process_subfolders_replay folders current_path downloaded failed w d' w' :
  process_subfolders fmt recurse folders current_path downloaded failed w
    = (Ret (d', failed), w') ->
  forall w2 downloaded2 failed2,
    w_fs w' ⊆ w_fs w2 ->
    exists w2',
      process_subfolders fmt recurse folders current_path downloaded2 failed2 w2
        = (Ret (downloaded2 + (d' - downloaded), failed2), w2')
      /\ w_fs w2' = w_fs w2 /\ quiet w2 w2'.
Proof.
  revert downloaded w.
  induction folders as [|subfolder rest IH]; intros downloaded w H w2 d2 f2 Hsub.
  - injection H as <- <-. exists w2. cbn. rewrite Nat.sub_diag, Nat.add_0_r.
    split; [done|]. split; [done | apply quiet_refl].
  - cbn [process_subfolders] in H |- *.
    apply bind_Ret_inv in H as (subfolder_id & ? & Hid & H).
    apply lift_Ret_inv in Hid as (Hid & ->).
    apply bind_Ret_inv in H as (subfolder_name & ? & Hname & H).
    apply lift_Ret_inv in Hname as (Hname & ->).
    rewrite (bind_lift _ _ _ _ Hid), (bind_lift _ _ _ _ Hname).
    assert (Hgo :
      (safe_folder_name ← lift (py_sanitize subfolder_name);
       mkdir_parents (current_path ++ [safe_folder_name]);;
       sub ← recurse subfolder_id (current_path ++ [safe_folder_name]);
       process_subfolders fmt recurse rest current_path
         (downloaded + fst sub) (failed + snd sub)) w = (Ret (d', failed), w') ->
      exists w2',
        (safe_folder_name ← lift (py_sanitize subfolder_name);
         mkdir_parents (current_path ++ [safe_folder_name]);;
         sub ← recurse subfolder_id (current_path ++ [safe_folder_name]);
         process_subfolders fmt recurse rest current_path
           (d2 + fst sub) (f2 + snd sub)) w2
          = (Ret (d2 + (d' - downloaded), f2), w2')
        /\ w_fs w2' = w_fs w2 /\ quiet w2 w2').
    { clear H. intros H.
      apply bind_Ret_inv in H as (safe_folder_name & ? & Hs & H).
      apply lift_Ret_inv in Hs as (Hs & ->).
      rewrite (bind_lift _ _ _ _ Hs).
      apply bind_Ret_inv in H as ([] & w1 & Hdir & H).
      apply bind_Ret_inv in H as ([sd sf] & w1' & Hrec & H).
      cbn [fst snd] in H.
      pose proof (process_subfolders_mono _ _ _ _ _ _ _ H) as (Hsub3 & Hd & Hf).
      cbn [fst snd] in Hd, Hf.
      assert (sf = 0) as -> by lia. rewrite Nat.add_0_r in H.
      pose proof (recurse_mono _ _ _ _ _ Hrec) as Hsub2.
      assert (w_fs w1' ⊆ w_fs w2) as Hsub2' by (by transitivity (w_fs w')).
      rewrite (bind_Ret _ _ _ _ _
                 (mkdir_parents_again _ _ _ w2 Hdir
                    ltac:(by transitivity (w_fs w1')))).
      destruct (recurse_replay _ _ _ _ _ Hrec w2 Hsub2') as (w2a & Hrec2 & Hfs2 & Hq2).
      rewrite (bind_Ret _ _ _ _ _ Hrec2). cbn [fst snd].
      destruct (IH _ _ H w2a (d2 + sd) (f2 + 0) ltac:(by rewrite Hfs2))
        as (w2' & Hrest & Hfs' & Hq').
      exists w2'. rewrite Hrest, Nat.add_0_r. split; [do 3 f_equal; lia|].
      split; [by rewrite Hfs' | by eapply quiet_trans]. }
    destruct subfolder_id; [by apply (IH _ _ H) | by apply Hgo ..].
Qed.

End Subfolders.

Lemma process_folder_mono fuel folder_id current_path w r w' :
  process_folder fmt unquote net fuel folder_id current_path w = (Ret r, w') ->
  w_fs w ⊆ w_fs w'.
Proof.
  revert folder_id current_path w r w'.
  induction fuel as [|fuel IH]; intros folder_id current_path w r w' H;
    [discriminate|].
  cbn [process_folder] in H.
  apply bind_Ret_inv in H as (data & w1 & Hfetch & H).
  apply get_folder_attempts_effects in Hfetch as (Hfs1 & _).
  rewrite <- Hfs1.
  assert (Hgo :
    (folder_name ← lift (py_get data (lit "name")
                           (PStr (lit "folder_" ++ fmt folder_id)));
     files ← lift (py_get data (lit "files") (PList []));
     files ← lift (py_iter files);
     counts ← process_files unquote net files current_path 0 0;
     folders ← lift (py_get data (lit "folders") (PList []));
     folders ← lift (py_iter folders);
     process_subfolders fmt (process_folder fmt unquote net fuel) folders
       current_path (fst counts) (snd counts)) w1 = (Ret r, w') ->
    w_fs w1 ⊆ w_fs w').
  { clear H. intros H.
    apply bind_Ret_inv in H as (folder_name & ? & Hname & H).
    apply lift_Ret_inv in Hname as (_ & ->).
    apply bind_Ret_inv in H as (files0 & ? & Hf0 & H).
    apply lift_Ret_inv in Hf0 as (_ & ->).
    apply bind_Ret_inv in H as (files & ? & Hf & H).
    apply lift_Ret_inv in Hf as (_ & ->).
    apply bind_Ret_inv in H as (counts & w2 & Hfiles & H).
    apply process_files_mono in Hfiles as (Hsub2 & _).
    apply bind_Ret_inv in H as (folders0 & ? & Hd0 & H).
    apply lift_Ret_inv in Hd0 as (_ & ->).
    apply bind_Ret_inv in H as (folders & ? & Hd & H).
    apply lift_Ret_inv in Hd as (_ & ->).
    apply (process_subfolders_mono _ IH) in H as (Hsub3 & _).
    by transitivity (w_fs w2). }
  destruct data; [by injection H as <- <- | by apply Hgo ..].
Qed.

Lemma get_folder_attempts_stable attempts folder_id w w2 :
  stable_folders net ->
  fst (get_folder_attempts net attempts folder_id w)
  = fst (get_folder_attempts net attempts folder_id w2).
Proof.
  intros Hstable. revert w w2.
  induction attempts as [|attempt rest IH]; intros w w2; [done|].
  rewrite !get_folder_attempts_step.
  rewrite (Hstable (w_clock w) (w_clock w2) folder_id).
  destruct (folder_reply net (w_clock w2) folder_id);
    [apply IH | apply IH | done | done].
Qed.

(** Against a stable service a later fetch of the same folder returns the
    same data. *)
Lemma get_folder_data_again folder_id w v w1 w2 :
  stable_folders net ->
  get_folder_data net folder_id w = (Ret v, w1) ->
  exists w2', get_folder_data net folder_id w2 = (Ret v, w2')
              /\ w_fs w2' = w_fs w2 /\ quiet w2 w2'.
Proof.
  intros Hstable H. unfold get_folder_data in *.
  pose proof (get_folder_attempts_stable (seq 0 MAX_RETRIES) folder_id w w2 Hstable) as E.
  destruct (get_folder_attempts net (seq 0 MAX_RETRIES) folder_id w2)
    as [o2 w2'] eqn:H2.
  rewrite H in E. cbn [fst] in E. subst o2.
  exists w2'. split; [done|]. by apply get_folder_attempts_effects in H2.
Qed.

Lemma process_folder_replay fuel folder_id current_path w d w' :
  stable_folders net ->
  process_folder fmt unquote net fuel folder_id current_path w = (Ret (d, 0), w') ->
  forall w2, w_fs w' ⊆ w_fs w2 ->
  exists w2',
    process_folder fmt unquote net fuel folder_id current_path w2 = (Ret (d, 0), w2')
    /\ w_fs w2' = w_fs w2 /\ quiet w2 w2'.
Proof.
  intros Hstable. revert folder_id current_path w d w'.
  induction fuel as [|fuel IH]; intros folder_id current_path w d w' H w2 Hsub;
    [discriminate|].
  cbn [process_folder] in H |- *.
  apply bind_Ret_inv in H as (data & w1 & Hfetch & H).
  destruct (get_folder_data_again _ _ _ _ w2 Hstable Hfetch)
    as (w2a & Hfetch2 & Hfs2 & Hq2).
  rewrite (bind_Ret _ _ _ _ _ Hfetch2).
  assert (Hgo :
    (folder_name ← lift (py_get data (lit "name")
                           (PStr (lit "folder_" ++ fmt folder_id)));
     files ← lift (py_get data (lit "files") (PList []));
     files ← lift (py_iter files);
     counts ← process_files unquote net files current_path 0 0;
     folders ← lift (py_get data (lit "folders") (PList []));
     folders ← lift (py_iter folders);
     process_subfolders fmt (process_folder fmt unquote net fuel) folders
       current_path (fst counts) (snd counts)) w1 = (Ret (d, 0), w') ->
    exists w2',
      (folder_name ← lift (py_get data (lit "name")
                             (PStr (lit "folder_" ++ fmt folder_id)));
       files ← lift (py_get data (lit "files") (PList []));
       files ← lift (py_iter files);
       counts ← process_files unquote net files current_path 0 0;
       folders ← lift (py_get data (lit "folders") (PList []));
       folders ← lift (py_iter folders);
       process_subfolders fmt (process_folder fmt unquote net fuel) folders
         current_path (fst counts) (snd counts)) w2a = (Ret (d, 0), w2')
      /\ w_fs w2' = w_fs w2 /\ quiet w2 w2').
  { clear H. intros H.
    apply bind_Ret_inv in H as (folder_name & ? & Hname & H).
    apply lift_Ret_inv in Hname as (Hname & ->).
    apply bind_Ret_inv in H as (files0 & ? & Hf0 & H).
    apply lift_Ret_inv in Hf0 as (Hf0 & ->).
    apply bind_Ret_inv in H as (files & ? & Hf & H).
    apply lift_Ret_inv in Hf as (Hf & ->).
    apply bind_Ret_inv in H as ([cd cf] & w3 & Hfiles & H).
    apply bind_Ret_inv in H as (folders0 & ? & Hd0 & H).
    apply lift_Ret_inv in Hd0 as (Hd0 & ->).
    apply bind_Ret_inv in H as (folders & ? & Hd & H).
    apply lift_Ret_inv in Hd as (Hd & ->).
    cbn [fst snd] in H.
    pose proof (process_subfolders_mono _ (process_folder_mono fuel)
                  _ _ _ _ _ _ _ H) as (Hsub3 & Hcd & Hcf).
    cbn [fst snd] in Hcd, Hcf. assert (cf = 0) as -> by lia.
    rewrite (bind_lift _ _ _ _ Hname), (bind_lift _ _ _ _ Hf0),
      (bind_lift _ _ _ _ Hf).
    rewrite (bind_Ret _ _ _ _ _
               (process_files_replay _ _ _ _ _ _ _ Hfiles w2a 0 0
                  ltac:(rewrite Hfs2; by transitivity (w_fs w')))).
    rewrite (bind_lift _ _ _ _ Hd0), (bind_lift _ _ _ _ Hd). cbn [fst snd].
    destruct (process_subfolders_replay _ (process_folder_mono fuel) IH
                _ _ _ _ _ _ _ H w2a (0 + (cd - 0)) 0 ltac:(by rewrite Hfs2))
      as (w2' & Hrun & Hfs' & Hq').
    exists w2'. rewrite Hrun. split; [do 3 f_equal; lia|].
    split; [by rewrite Hfs' | by eapply quiet_trans]. }
  destruct data; [|by apply Hgo ..].
  injection H as <- <-. by exists w2a.
Qed.

Lemma main_loop_mono fuel roots total_downloaded total_failed w r w' :
  main_loop fmt unquote net fuel roots total_downloaded total_failed w
    = (Ret r, w') ->
  w_fs w ⊆ w_fs w' /\ total_downloaded <= fst r /\ total_failed <= snd r.
Proof.
  revert total_downloaded total_failed w.
  induction roots as [|root_id rest IH]; intros td tf w H.
  - by injection H as <- <-.
  - cbn [main_loop] in H.
    apply bind_Ret_inv in H as (root_data & w1 & Hfetch & H).
    apply get_folder_attempts_effects in Hfetch as (Hfs1 & _).
    rewrite <- Hfs1.
    assert (Hgo :
      (root_name ← lift (py_get root_data (lit "name")
                           (PStr (lit "resources_" ++ fmt root_id)));
       safe_root_name ← lift (py_sanitize root_name);
       mkdir_parents (OUTPUT_DIR ++ [safe_root_name]);;
       counts ← process_folder fmt unquote net fuel root_id
                  (OUTPUT_DIR ++ [safe_root_name]);
       main_loop fmt unquote net fuel rest
         (td + fst counts) (tf + snd counts)) w1 = (Ret r, w') ->
      w_fs w1 ⊆ w_fs w' /\ td <= fst r /\ tf <= snd r).
    { clear H. intros H.
      apply bind_Ret_inv in H as (root_name & ? & Hname & H).
      apply lift_Ret_inv in Hname as (_ & ->).
      apply bind_Ret_inv in H as (safe_root_name & ? & Hs & H).
      apply lift_Ret_inv in Hs as (_ & ->).
      apply bind_Ret_inv in H as ([] & w2 & Hdir & H).
      apply mkdir_parents_inv in Hdir as (Hsub2 & _).
      apply bind_Ret_inv in H as (counts & w3 & Hrun & H).
      apply process_folder_mono in Hrun.
      apply IH in H as (Hsub4 & ? & ?).
      split; [|lia]. transitivity (w_fs w2); [done|]. by transitivity (w_fs w3). }
    destruct root_data; [by apply IH in H | by apply Hgo ..].
Qed.

Lemma main_loop_replay fuel roots total_downloaded total_failed w d' w' :
  stable_folders net ->
  main_loop fmt unquote net fuel roots total_downloaded total_failed w
    = (Ret (d', total_failed), w') ->
  forall w2 total_downloaded2 total_failed2,
    w_fs w' ⊆ w_fs w2 ->
    exists w2',
      main_loop fmt unquote net fuel roots total_downloaded2 total_failed2 w2
        = (Ret (total_downloaded2 + (d' - total_downloaded), total_failed2), w2')
      /\ w_fs w2' = w_fs w2 /\ quiet w2 w2'.
Proof.
  intros Hstable. revert total_downloaded w.
  induction roots as [|root_id rest IH]; intros td w H w2 td2 tf2 Hsub.
  - injection H as <- <-. exists w2. cbn. rewrite Nat.sub_diag, Nat.add_0_r.
    split; [done|]. split; [done | apply quiet_refl].
  - cbn [main_loop] in H |- *.
    apply bind_Ret_inv in H as (root_data & w1 & Hfetch & H).
    destruct (get_folder_data_again _ _ _ _ w2 Hstable Hfetch)
      as (w2a & Hfetch2 & Hfs2 & Hq2).
    rewrite (bind_Ret _ _ _ _ _ Hfetch2).
    assert (Hgo :
      (root_name ← lift (py_get root_data (lit "name")
                           (PStr (lit "resources_" ++ fmt root_id)));
       safe_root_name ← lift (py_sanitize root_name);
       mkdir_parents (OUTPUT_DIR ++ [safe_root_name]);;
       counts ← process_folder fmt unquote net fuel root_id
                  (OUTPUT_DIR ++ [safe_root_name]);
       main_loop fmt unquote net fuel rest
         (td + fst counts) (total_failed + snd counts)) w1
        = (Ret (d', total_failed), w') ->
      exists w2',
        (root_name ← lift (py_get root_data (lit "name")
                             (PStr (lit "resources_" ++ fmt root_id)));
         safe_root_name ← lift (py_sanitize root_name);
         mkdir_parents (OUTPUT_DIR ++ [safe_root_name]);;
         counts ← process_folder fmt unquote net fuel root_id
                    (OUTPUT_DIR ++ [safe_root_name]);
         main_loop fmt unquote net fuel rest
           (td2 + fst counts) (tf2 + snd counts)) w2a
          = (Ret (td2 + (d' - td), tf2), w2')
        /\ w_fs w2' = w_fs w2 /\ quiet w2 w2').
    { clear H. intros H.
      apply bind_Ret_inv in H as (root_name & ? & Hname & H).
      apply lift_Ret_inv in Hname as (Hname & ->).
      apply bind_Ret_inv in H as (safe_root_name & ? & Hs & H).
      apply lift_Ret_inv in Hs as (Hs & ->).
      rewrite (bind_lift _ _ _ _ Hname), (bind_lift _ _ _ _ Hs).
      apply bind_Ret_inv in H as ([] & w3 & Hdir & H).
      apply bind_Ret_inv in H as ([sd sf] & w4 & Hrun & H).
      cbn [fst snd] in H.
      pose proof (main_loop_mono _ _ _ _ _ _ _ H) as (Hsub5 & Hd & Hf).
      cbn [fst snd] in Hd, Hf.
      assert (sf = 0) as -> by lia. rewrite Nat.add_0_r in H.
      pose proof (process_folder_mono _ _ _ _ _ _ Hrun) as Hsub4.
      assert (w_fs w4 ⊆ w_fs w2a) as Hsub4'
        by (rewrite Hfs2; by transitivity (w_fs w')).
      rewrite (bind_Ret _ _ _ _ _
                 (mkdir_parents_again _ _ _ w2a Hdir
                    ltac:(by transitivity (w_fs w4)))).
      destruct (process_folder_replay _ _ _ _ _ _ Hstable Hrun w2a Hsub4')
        as (w2b & Hrun2 & Hfs2b & Hq2b).
      rewrite (bind_Ret _ _ _ _ _ Hrun2). cbn [fst snd].
      destruct (IH _ _ H w2b (td2 + sd) (tf2 + 0)
                  ltac:(rewrite Hfs2b, Hfs2; done))
        as (w2' & Hrest & Hfs' & Hq').
      exists w2'. rewrite Hrest, Nat.add_0_r. split; [do 3 f_equal; lia|].
      split; [by rewrite Hfs', Hfs2b | ].
      eapply quiet_trans; [exact Hq2|]. by eapply quiet_trans. }
    destruct root_data; [|by apply Hgo ..].
    destruct (IH _ _ H w2a td2 tf2 ltac:(by rewrite Hfs2))
      as (w2' & Hrest & Hfs' & Hq').
    exists w2'. split; [done|].
    split; [by rewrite Hfs' | by eapply quiet_trans].
Qed.

Lemma main_replay fuel w d w1 :
  stable_folders net ->
  main fmt unquote net fuel w = (Ret (d, 0), w1) ->
  exists w2, main fmt unquote net fuel w1 = (Ret (d, 0), w2)
             /\ w_fs w2 = w_fs w1 /\ quiet w1 w2.
Proof.
  intros Hstable H. unfold main in *.
  apply bind_Ret_inv in H as ([] & w0 & Hdir & H).
  pose proof (main_loop_mono _ _ _ _ _ _ _ H) as (Hsub & _).
  rewrite (bind_Ret _ _ _ _ _ (mkdir_parents_again _ _ _ w1 Hdir Hsub)).
  destruct (main_loop_replay _ _ _ _ _ _ _ Hstable H w1 0 0 ltac:(done))
    as (w2 & Hrun & Hfs & Hq).
  exists w2. rewrite Hrun. split; [do 3 f_equal; lia | done].
Qed.

(** C2, amended: a file entry whose local path exists is counted as
    downloaded and nothing is requested or written for it; and when the
    service answers folder requests the same way at any time, a walk that
    ended without a failure, run again from the state it left, returns the
    same count and no failure, sends no download request and leaves the file
    system as it is. *)
Theorem existing_files_skipped_and_walk_idempotent :
  (forall kvs rest current_path downloaded failed w
          file_path file_name safe_name n,
     py_get (PDict kvs) (lit "path") (PStr []) = Ret file_path ->
     truthy file_path = true ->
     py_get (PDict kvs) (lit "name") (PStr []) = Ret file_name ->
     safe_file_name unquote file_path file_name = Ret safe_name ->
     lookup_node (w_fs w) (current_path ++ [safe_name]) = Some n ->
     process_files unquote net (PDict kvs :: rest) current_path downloaded failed w
     = process_files unquote net rest current_path (S downloaded) failed w)
  /\ (stable_folders net ->
      forall fuel folder_id current_path w d w1,
        process_folder fmt unquote net fuel folder_id current_path w
          = (Ret (d, 0), w1) ->
        exists w2,
          process_folder fmt unquote net fuel folder_id current_path w1
            = (Ret (d, 0), w2)
          /\ w_fs w2 = w_fs w1 /\ quiet w1 w2)
  /\ (stable_folders net ->
      forall fuel w d w1,
        main fmt unquote net fuel w = (Ret (d, 0), w1) ->
        exists w2,
          main fmt unquote net fuel w1 = (Ret (d, 0), w2)
          /\ w_fs w2 = w_fs w1 /\ quiet w1 w2).
Proof.
  split; [|split].
  - intros kvs rest current_path downloaded failed w
      file_path file_name safe_name n Hp Ht Hn Hs Hex.
    cbn [process_files].
    rewrite (bind_lift _ _ _ _ Hp), (bind_lift _ _ _ _ Hn), Ht. cbn [negb].
    rewrite (bind_lift _ _ _ _ Hs).
    unfold mbind at 1, M_bind at 1, bind at 1, path_exists at 1.
    by rewrite Hex.
  - intros Hstable fuel folder_id current_path w d w1 H.
    by apply (process_folder_replay _ _ _ _ _ _ Hstable H).
  - intros Hstable fuel w d w1 H. by apply (main_replay fuel w).
Qed.

End Idempotence.

Lemma net_scenario_stable : stable_folders net_scenario.
Proof. intros t t' folder_id. reflexivity. Qed.

(** A file already on disk is skipped; the scenario run twice. *)
Lemma existing_files_skipped_and_walk_idempotent_witness :
  process_files unquote_plain net_down
    [dict [("path", PStr (lit "doc/a.pdf")); ("name", PStr (lit "Law A.pdf"))]]
    [lit "laws"] 0 0 w_saved = (Ret (1, 0), w_saved)
  /\ exists w2,
       main fmt_scalar unquote_plain net_scenario 2
         (snd (main fmt_scalar unquote_plain net_scenario 2 w_empty))
       = (Ret (1, 0), w2)
       /\ w_fs w2 = w_fs (snd (main fmt_scalar unquote_plain net_scenario 2 w_empty))
       /\ quiet (snd (main fmt_scalar unquote_plain net_scenario 2 w_empty)) w2.
Proof.
  split.
  - unfold dict. cbn [List.map fst snd].
    rewrite (proj1 (existing_files_skipped_and_walk_idempotent
                      fmt_scalar unquote_plain net_down)
               _ [] [lit "laws"] 0 0 w_saved
               (PStr (lit "doc/a.pdf")) (PStr (lit "Law A.pdf")) (lit "Law A.pdf")
               (File [37; 80; 68; 70]%N));
      reflexivity.
  - apply (proj2 (proj2 (existing_files_skipped_and_walk_idempotent
                           fmt_scalar unquote_plain net_scenario))
             net_scenario_stable 2 w_empty).
    vm_compute. reflexivity.
Defined.

(** C2 as stated fails when the first run had a failure: the service is the
    same at any time, the first run saved nothing and reported one failed
    file, and the second run requests the file three more times and reports
    the failure again. *)
Lemma second_run_repeats_failed_download :
  stable_folders net_file_missing
  /\ fst (main fmt_scalar unquote_plain net_file_missing 1 w_empty) = Ret (0, 1)
  /\ fst (main fmt_scalar unquote_plain net_file_missing 1
            (snd (main fmt_scalar unquote_plain net_file_missing 1 w_empty)))
     = Ret (0, 1)
  /\ filter (fun e => is_file_get e = true)
       (drop (length (w_trace (snd (main fmt_scalar unquote_plain
                                      net_file_missing 1 w_empty))))
          (w_trace (snd (main fmt_scalar unquote_plain net_file_missing 1
                           (snd (main fmt_scalar unquote_plain
                                   net_file_missing 1 w_empty))))))
     = [EvFileGet (PStr (lit "doc/a.pdf")); EvFileGet (PStr (lit "doc/a.pdf"));
        EvFileGet (PStr (lit "doc/a.pdf"))].
Proof.
  split; [intros t t' folder_id; reflexivity|].
  vm_compute. repeat split.
Qed.

(** * Further properties *)

(** ** sanitize_filename on safe names *)

Section SanitizerMore.

Implicit Types (s name chars : str) (c : char).

Lemma re_sub_invalid_id name :
  Forall (fun c => is_invalid c = false) name -> re_sub_invalid name = name.
Proof.
  unfold re_sub_invalid. induction 1 as [|c name Hc _ IH]; [done|].
  cbn [List.map]. by rewrite Hc, IH.
Qed.

Lemma lstrip_id chars s :
  (forall c, head s = Some c -> existsb (N.eqb c) chars = false) ->
  lstrip chars s = s.
Proof. destruct s as [|c s]; [done|]. intros H. cbn. by rewrite (H c). Qed.

Lemma rstrip_id chars s :
  (forall c, last s = Some c -> existsb (N.eqb c) chars = false) ->
  rstrip chars s = s.
Proof.
  intros H. unfold rstrip. rewrite lstrip_id, rev_involutive; [done|].
  intros c. rewrite rev_alt. fold (reverse s). rewrite head_reverse. apply H.
Qed.

Lemma strip_id chars s :
  (forall c, head s = Some c -> existsb (N.eqb c) chars = false) ->
  (forall c, last s = Some c -> existsb (N.eqb c) chars = false) ->
  strip chars s = s.
Proof. intros Hh Hl. unfold strip. by rewrite lstrip_id, rstrip_id. Qed.

Lemma sanitize_filename_fixed name :
  Forall (fun c => is_invalid c = false) name ->
  (forall c, head name = Some c -> is_dot_or_space c = false) ->
  (forall c, last name = Some c -> is_dot_or_space c = false) ->
  name <> [] -> length name <= 200 ->
  sanitize_filename name = name.
Proof.
  intros Hclean Hh Hl Hne Hlen. unfold sanitize_filename.
  rewrite re_sub_invalid_id by done. rewrite strip_id by done.
  apply Nat.ltb_ge in Hlen. rewrite Hlen. by destruct name.
Qed.

(** A name that is already safe is returned as it is: no reserved
    character, no space or dot at either end, between 1 and 200
    characters. *)
Theorem sanitize_filename_identity name :
  Forall (fun c => is_invalid c = false) name ->
  (forall c, head name = Some c -> is_dot_or_space c = false) ->
  (forall c, last name = Some c -> is_dot_or_space c = false) ->
  name <> [] -> length name <= 200 ->
  sanitize_filename name = name.
Proof. apply sanitize_filename_fixed. Qed.

Lemma sanitize_filename_identity_witness :
  sanitize_filename (lit "Law A.pdf") = lit "Law A.pdf".
Proof.
  apply sanitize_filename_identity.
  - repeat constructor.
  - by intros c [= <-].
  - by intros c [= <-].
  - done.
  - vm_compute. lia.
Defined.

Lemma sanitize_filename_head name c :
  head (sanitize_filename name) = Some c -> is_dot_or_space c = false.
Proof.
  rewrite sanitize_filename_unfold.
  pose proof (truncated_head name c) as H.
  destruct (truncated name); [|exact H]. by intros [= <-].
Qed.

(** When the stripped name has at most 200 characters, so that nothing is
    cut, sanitizing the result again changes nothing. *)
Theorem sanitize_filename_idempotent name :
  length (strip (lit ". ") (re_sub_invalid name)) <= 200 ->
  sanitize_filename (sanitize_filename name) = sanitize_filename name.
Proof.
  intros Hlen. apply sanitize_filename_fixed.
  - apply sanitize_filename_clean.
  - apply sanitize_filename_head.
  - intros c. rewrite sanitize_filename_unfold. unfold truncated. cbv zeta.
    pose proof Hlen as Hlen'. apply Nat.ltb_ge in Hlen'. rewrite Hlen'.
    pose proof (strip_last (lit ". ") (re_sub_invalid name) c) as H.
    destruct (strip _ _); [|exact H]. by intros [= <-].
  - rewrite sanitize_filename_unfold. by destruct (truncated name).
  - apply sanitize_filename_length.
Qed.

Lemma sanitize_filename_idempotent_witness :
  sanitize_filename (sanitize_filename (lit " rapport <final>.pdf. "))
  = sanitize_filename (lit " rapport <final>.pdf. ").
Proof. apply sanitize_filename_idempotent. vm_compute. lia. Defined.

(** A name cut to 200 characters can end with a space, which a second pass
    strips: without the length bound the function is not idempotent. *)
Example sanitize_filename_twice_differs :
  sanitize_filename (sanitize_filename (repeat 97%N 199 ++ lit " b"))
  <> sanitize_filename (repeat 97%N 199 ++ lit " b").
Proof. vm_compute. discriminate. Qed.

(** The result is one ordinary path component: it holds no slash and no
    backslash and is neither empty nor [.] nor [..], so joining it to a
    directory names an entry of that directory. *)
Theorem sanitize_filename_component name :
  (47%N ∉ sanitize_filename name)
  /\ (92%N ∉ sanitize_filename name)
  /\ sanitize_filename name <> []
  /\ sanitize_filename name <> lit "."
  /\ sanitize_filename name <> lit "..".
Proof.
  pose proof (sanitize_filename_clean name) as Hclean.
  rewrite Forall_forall in Hclean.
  pose proof (sanitize_filename_head name) as Hhead.
  repeat split.
  - intros Hin. by specialize (Hclean _ Hin).
  - intros Hin. by specialize (Hclean _ Hin).
  - rewrite sanitize_filename_unfold. by destruct (truncated name).
  - intros E. rewrite E in Hhead. by specialize (Hhead _ eq_refl).
  - intros E. rewrite E in Hhead. by specialize (Hhead _ eq_refl).
Qed.

(** *** The extension survives when nothing is cut *)

Lemma lstrip_app_keep chars a b c :
  c ∈ a -> existsb (N.eqb c) chars = false ->
  lstrip chars (a ++ b) = lstrip chars a ++ b.
Proof.
  intros Hin Hc. induction a as [|x a IH]; [by apply elem_of_nil in Hin|].
  cbn. destruct (existsb (N.eqb x) chars) eqn:Ex; [|done].
  apply IH. apply elem_of_cons in Hin as [->|Hin]; [congruence | done].
Qed.

Lemma rstrip_app_keep chars a b c :
  last b = Some c -> existsb (N.eqb c) chars = false ->
  rstrip chars (a ++ b) = a ++ b.
Proof.
  intros Hl Hc. apply rstrip_id. intros c'.
  rewrite last_app, Hl. by intros [= <-].
Qed.

Lemma re_sub_invalid_keeps_body a c :
  c ∈ a -> is_dot_or_space c = false ->
  exists c', c' ∈ re_sub_invalid a /\ is_dot_or_space c' = false.
Proof.
  intros Hin Hc. exists (if is_invalid c then 95%N else c). split.
  - unfold re_sub_invalid. apply list_elem_of_In, in_map_iff.
    exists c. split; [done | by apply list_elem_of_In].
  - by destruct (is_invalid c).
Qed.

(** A suffix without reserved character that does not end with a space or
    a dot is kept whole, provided some character before it is neither dot
    nor space and the stripped name is not cut. *)
Lemma sanitize_filename_keeps_suffix stem ext c_stem c_ext :
  Forall (fun c => is_invalid c = false) ext ->
  last ext = Some c_ext -> is_dot_or_space c_ext = false ->
  c_stem ∈ stem -> is_dot_or_space c_stem = false ->
  length (strip (lit ". ") (re_sub_invalid (stem ++ ext))) <= 200 ->
  exists body, sanitize_filename (stem ++ ext) = body ++ ext.
Proof.
  intros Hext Hlast Hce Hin Hcs Hlen.
  destruct (re_sub_invalid_keeps_body _ _ Hin Hcs) as (c' & Hin' & Hc').
  assert (strip (lit ". ") (re_sub_invalid (stem ++ ext))
          = lstrip (lit ". ") (re_sub_invalid stem) ++ ext) as E.
  { unfold re_sub_invalid at 1. rewrite map_app.
    fold (re_sub_invalid stem). fold (re_sub_invalid ext).
    rewrite (re_sub_invalid_id ext) by done. unfold strip.
    rewrite (lstrip_app_keep _ _ _ c') by done.
    by rewrite (rstrip_app_keep _ _ _ c_ext). }
  exists (lstrip (lit ". ") (re_sub_invalid stem)).
  unfold sanitize_filename. rewrite E in Hlen |- *.
  apply Nat.ltb_ge in Hlen. rewrite Hlen.
  destruct (lstrip (lit ". ") (re_sub_invalid stem) ++ ext) eqn:E'; [|done].
  apply app_eq_nil in E' as [_ ->]. discriminate.
Qed.

Lemma lower_char_inv c v :
  lower_char c = v -> c = v \/ (c + 32)%N = v.
Proof. unfold lower_char. destruct (_ && _); auto. Qed.

Lemma pdf_suffix_chars ext :
  lower ext = lit ".pdf" ->
  Forall (fun c => is_invalid c = false) ext
  /\ exists c, last ext = Some c /\ is_dot_or_space c = false.
Proof.
  destruct ext as [|c1 [|c2 [|c3 [|c4 [|c5 ext]]]]]; try discriminate.
  intros [= H1 H2 H3 H4].
  apply lower_char_inv in H1, H2, H3, H4.
  assert (forall a b : N, (a + 32)%N = b -> a = (b - 32)%N) as Hsub by lia.
  destruct H1 as [->|H1%Hsub], H2 as [->|H2%Hsub],
    H3 as [->|H3%Hsub], H4 as [->|H4%Hsub]; subst;
    (split; [repeat constructor | by eexists]).
Qed.

(** A name that ends in [.pdf], in any case, keeps its extension through
    the sanitizer when some character before the extension is neither dot
    nor space and the stripped name has at most 200 characters. *)
Theorem sanitize_filename_keeps_pdf name c :
  endswith (lower name) (lit ".pdf") = true ->
  c ∈ take (length name - 4) name -> is_dot_or_space c = false ->
  length (strip (lit ". ") (re_sub_invalid name)) <= 200 ->
  endswith (lower (sanitize_filename name)) (lit ".pdf") = true.
Proof.
  intros Hend Hin Hc Hlen.
  unfold endswith in Hend. apply andb_prop in Hend as [Hend _].
  apply bool_decide_eq_true_1 in Hend.
  unfold lower in Hend. rewrite length_map, skipn_map in Hend.
  change (length (lit ".pdf")) with 4 in Hend.
  fold (lower (drop (length name - 4) name)) in Hend.
  destruct (pdf_suffix_chars _ Hend) as (Hclean & c_ext & Hlast & Hce).
  rewrite <- (take_drop (length name - 4) name) in Hlen |- *.
  destruct (sanitize_filename_keeps_suffix _ _ c c_ext Hclean Hlast Hce Hin Hc Hlen)
    as [body ->].
  unfold lower. rewrite map_app. fold (lower (drop (length name - 4) name)).
  rewrite Hend. apply endswith_app.
Qed.

Lemma sanitize_filename_keeps_pdf_witness :
  endswith (lower (sanitize_filename (lit " Dahir: 1.58.PDF"))) (lit ".pdf") = true.
Proof.
  apply (sanitize_filename_keeps_pdf _ 68%N).
  - reflexivity.
  - vm_compute. set_solver.
  - reflexivity.
  - vm_compute. lia.
Defined.

End SanitizerMore.

(** ** Splitting a remote path *)

Section Split.

Implicit Types (s seg : str) (sep : char).

Lemma split_nonempty sep s : split sep s <> [].
Proof.
  destruct s as [|c s]; [done|]. cbn.
  destruct (N.eqb c sep); [done|]. by destruct (split sep s).
Qed.

Lemma join_cons sep seg segs :
  segs <> [] -> join sep (seg :: segs) = seg ++ sep :: join sep segs.
Proof. by destruct segs. Qed.

Lemma join_snoc sep segs seg :
  segs <> [] -> join sep (segs ++ [seg]) = join sep segs ++ sep :: seg.
Proof.
  induction segs as [|x segs IH]; [done|]. intros _.
  destruct segs as [|y segs]; [done|].
  change ((x :: y :: segs) ++ [seg]) with (x :: ((y :: segs) ++ [seg])).
  rewrite join_cons by done. rewrite IH by done.
  rewrite (join_cons sep x (y :: segs)) by done.
  by rewrite <- app_assoc.
Qed.

Lemma split_no_sep sep s : Forall (fun seg => sep ∉ seg) (split sep s).
Proof.
  induction s as [|c s IH]; cbn.
  - repeat constructor. apply not_elem_of_nil.
  - destruct (N.eqb c sep) eqn:E.
    + constructor; [apply not_elem_of_nil | done].
    + destruct (split sep s) as [|seg segs]; [repeat constructor|].
      * intros [->|H]%elem_of_cons; [by rewrite N.eqb_refl in E|].
        by apply elem_of_nil in H.
      * apply Forall_cons in IH as [Hseg Hsegs]. constructor; [|done].
        intros [->|H]%elem_of_cons; [by rewrite N.eqb_refl in E | done].
Qed.

Lemma join_split_eq sep s : join sep (split sep s) = s.
Proof.
  induction s as [|c s IH]; [done|]. cbn [split].
  pose proof (split_nonempty sep s) as Hne.
  destruct (N.eqb c sep) eqn:E.
  - apply N.eqb_eq in E as ->. rewrite join_cons by done. by rewrite IH.
  - destruct (split sep s) as [|seg segs]; [done|].
    destruct segs as [|seg' segs].
    + cbn in IH |- *. by rewrite IH.
    + rewrite join_cons in IH |- * by done. by rewrite <- IH.
Qed.

(** [sep.join(s.split(sep))] gives [s] back, and no segment holds the
    separator. *)
Theorem join_split sep s :
  join sep (split sep s) = s /\ Forall (fun seg => sep ∉ seg) (split sep s).
Proof. split; [apply join_split_eq | apply split_no_sep]. Qed.

(** [path.split('/')[-1]], from which the file name is derived when the
    entry has none, is the text after the last separator of the path: it
    holds no separator, and what precedes it is empty or ends with one. *)
Theorem split_last_segment sep s :
  exists pre,
    s = pre ++ List.last (split sep s) []
    /\ (sep ∉ List.last (split sep s) [])
    /\ (pre = [] \/ last pre = Some sep).
Proof.
  pose proof (split_nonempty sep s) as Hne.
  pose proof (join_split_eq sep s) as Hjoin.
  pose proof (split_no_sep sep s) as Hseg.
  rewrite (app_removelast_last [] Hne) in Hjoin, Hseg.
  apply Forall_app in Hseg as [_ Hlast]. apply Forall_cons in Hlast as [Hlast _].
  destruct (removelast (split sep s)) as [|x init] eqn:E.
  - exists []. cbn in Hjoin. split; [by rewrite Hjoin|]. split; [done | by left].
  - rewrite join_snoc in Hjoin by done.
    exists (join sep (x :: init) ++ [sep]).
    split; [symmetry; rewrite <- app_assoc; exact Hjoin|].
    split; [done|]. right. apply last_snoc.
Qed.

End Split.

(** ** Retries that end in success, and what a retry loop touches *)

Section RetriesMore.

Variable net : network.

Lemma get_folder_attempts_first_success pre attempt post folder_id w v :
  (forall j, j < length pre ->
     folder_attempt_fails (folder_reply net (w_clock w + j) folder_id) = true) ->
  folder_reply net (w_clock w + length pre) folder_id = JOk v ->
  get_folder_attempts net (pre ++ attempt :: post) folder_id w =
  (Ret v,
   {| w_fs := w_fs w; w_clock := w_clock w + length pre + 1;
      w_trace := w_trace w ++ retry_trace (EvFolderGet folder_id) pre
                   ++ [EvFolderGet folder_id] |}).
Proof.
  revert w. induction pre as [|a pre IH]; intros w Hfail Hok.
  - cbn [app length] in *. rewrite Nat.add_0_r in Hok.
    rewrite get_folder_attempts_step, Hok. unfold after_request.
    by rewrite Nat.add_0_r, Nat.add_1_r.
  - cbn [app length] in *. rewrite get_folder_attempts_step.
    pose proof (Hfail 0 ltac:(lia)) as H0. rewrite Nat.add_0_r in H0.
    rewrite (IH (after_failure w (EvFolderGet folder_id) a)).
    + cbn [after_failure w_fs w_clock w_trace].
      rewrite (retry_trace_cons _ a pre), <- !app_assoc.
      replace (S (w_clock w) + length pre + 1)
        with (w_clock w + S (length pre) + 1) by lia.
      by destruct (folder_reply net (w_clock w) folder_id).
    + intros j Hj. cbn [after_failure w_clock].
      specialize (Hfail (S j) ltac:(lia)). by rewrite Nat.add_succ_r in Hfail.
    + cbn [after_failure w_clock]. by rewrite Nat.add_succ_r in Hok.
Qed.

(** [get_folder_data] stops at the first attempt that succeeds: when the
    attempts before attempt [k] fail and attempt [k] returns [v], it returns
    [v] after [k + 1] requests, each failed one followed by the retry delay,
    and sends nothing more. *)
Theorem get_folder_data_first_success k folder_id w v :
  k < MAX_RETRIES ->
  (forall j, j < k ->
     folder_attempt_fails (folder_reply net (w_clock w + j) folder_id) = true) ->
  folder_reply net (w_clock w + k) folder_id = JOk v ->
  get_folder_data net folder_id w =
  (Ret v,
   {| w_fs := w_fs w; w_clock := w_clock w + k + 1;
      w_trace := w_trace w
        ++ flat_map (fun _ => [EvFolderGet folder_id; EvSleep RETRY_DELAY]) (seq 0 k)
        ++ [EvFolderGet folder_id] |}).
Proof.
  intros Hk Hfail Hok. unfold get_folder_data, MAX_RETRIES in *.
  destruct k as [|[|[|k]]]; [| | |lia].
  - exact (get_folder_attempts_first_success [] 0 [1; 2] folder_id w v Hfail Hok).
  - exact (get_folder_attempts_first_success [0] 1 [2] folder_id w v Hfail Hok).
  - exact (get_folder_attempts_first_success [0; 1] 2 [] folder_id w v Hfail Hok).
Qed.

Lemma get_folder_attempts_bounds attempts folder_id w o w1 :
  get_folder_attempts net attempts folder_id w = (o, w1) ->
  w_fs w1 = w_fs w
  /\ w_clock w + min 1 (length attempts) <= w_clock w1 <= w_clock w + length attempts
  /\ exists evs,
       w_trace w1 = w_trace w ++ evs
       /\ Forall (fun e => e = EvFolderGet folder_id \/ e = EvSleep RETRY_DELAY) evs
       /\ length (List.filter is_folder_get evs)
          = w_clock w1 - w_clock w.
Proof.
  revert w. induction attempts as [|attempt rest IH]; intros w.
  - intros [= <- <-]. split; [done|]. split; [cbn; lia|].
    exists []. rewrite app_nil_r, Nat.sub_diag. by repeat split.
  - rewrite get_folder_attempts_step.
    assert (Hfail :
      get_folder_attempts net rest folder_id
        (after_failure w (EvFolderGet folder_id) attempt) = (o, w1) ->
      w_fs w1 = w_fs w
      /\ w_clock w + min 1 (length (attempt :: rest)) <= w_clock w1
           <= w_clock w + length (attempt :: rest)
      /\ exists evs,
           w_trace w1 = w_trace w ++ evs
           /\ Forall (fun e => e = EvFolderGet folder_id \/ e = EvSleep RETRY_DELAY) evs
           /\ length (List.filter is_folder_get evs)
              = w_clock w1 - w_clock w).
    { intros H. apply IH in H as (Hfs & Hle & evs & Htr & Hevs & Hcount).
      cbn [after_failure w_fs w_clock w_trace length] in *.
      split; [done|]. split; [lia|].
      exists (retry_trace (EvFolderGet folder_id) [attempt] ++ evs).
      rewrite Htr, <- app_assoc. split; [done|].
      unfold retry_trace. cbn [flat_map]. rewrite app_nil_r.
      split.
      - apply Forall_app. split; [|done].
        destruct (attempt <? MAX_RETRIES - 1);
          repeat (apply Forall_cons; split; [auto|]); by apply Forall_nil.
      - rewrite List.filter_app, length_app, Hcount.
        destruct (attempt <? MAX_RETRIES - 1); cbn; lia. }
    destruct (folder_reply net (w_clock w) folder_id);
      [exact Hfail | exact Hfail | | ];
      (intros [= <- <-]; cbn [after_request w_fs w_clock w_trace length];
       split; [done|]; split; [lia|];
       exists [EvFolderGet folder_id]; split; [done|];
       split; [apply Forall_cons; split; [auto | by apply Forall_nil]|];
       cbn; lia).
Qed.

(** Whatever the service answers, [get_folder_data] sends at least one and
    at most [MAX_RETRIES] requests, all for its own folder, sleeps only the
    retry delay, and does not touch the file system. *)
Theorem get_folder_data_bounds folder_id w o w1 :
  get_folder_data net folder_id w = (o, w1) ->
  w_fs w1 = w_fs w
  /\ w_clock w < w_clock w1 <= w_clock w + MAX_RETRIES
  /\ exists evs,
       w_trace w1 = w_trace w ++ evs
       /\ Forall (fun e => e = EvFolderGet folder_id \/ e = EvSleep RETRY_DELAY) evs
       /\ length (List.filter is_folder_get evs)
          = w_clock w1 - w_clock w.
Proof.
  intros H. apply get_folder_attempts_bounds in H as (Hfs & Hle & Hevs).
  rewrite length_seq in Hle. unfold MAX_RETRIES in *.
  split; [done|]. split; [lia | exact Hevs].
Qed.

End RetriesMore.

(** ** download_file: success, what it touches, file-system errors *)

Section DownloadMore.

Variable net : network.

Lemma download_attempts_first_success pre attempt post file_path save_path w chunks :
  can_open (w_fs w) save_path = true ->
  (forall j, j < length pre ->
     stream_attempt_fails (file_reply net (w_clock w + j) file_path) = true) ->
  file_reply net (w_clock w + length pre) file_path = SChunks chunks true ->
  download_attempts net (pre ++ attempt :: post) file_path save_path w =
  (Ret true,
   {| w_fs := <[save_path := File (concat chunks)]> (w_fs w);
      w_clock := w_clock w + length pre + 1;
      w_trace := w_trace w ++ retry_trace (EvFileGet file_path) pre
                   ++ [EvFileGet file_path] |}).
Proof.
  revert w. induction pre as [|a pre IH]; intros w Hopen Hfail Hok.
  - cbn [app length] in *. rewrite Nat.add_0_r in Hok.
    cbn [download_attempts]. unfold mbind, M_bind, bind, http_get_stream.
    rewrite Hok. unfold open_wb, write_chunks, with_fs. cbn [w_fs].
    rewrite fs_open_wb_run by done. cbn [set_fs w_fs].
    rewrite write_all. unfold mret, M_ret, ret, set_fs. cbn [w_fs w_clock w_trace].
    by rewrite Nat.add_0_r, Nat.add_1_r.
  - cbn [app length] in *.
    rewrite download_attempts_fail_step; [|done|].
    2:{ specialize (Hfail 0 ltac:(lia)). by rewrite Nat.add_0_r in Hfail. }
    rewrite IH.
    + cbn [set_fs after_failure w_fs w_clock w_trace].
      rewrite insert_delete_eq, (retry_trace_cons _ a pre), <- !app_assoc.
      by replace (S (w_clock w) + length pre + 1)
        with (w_clock w + S (length pre) + 1) by lia.
    + cbn [set_fs w_fs]. by apply can_open_delete.
    + intros j Hj. cbn [set_fs after_failure w_clock].
      specialize (Hfail (S j) ltac:(lia)). by rewrite Nat.add_succ_r in Hfail.
    + cbn [set_fs after_failure w_clock]. by rewrite Nat.add_succ_r in Hok.
Qed.

(** When the attempts before attempt [k] fail and attempt [k] streams to
    the end, [download_file] returns [True] after [k + 1] requests and the
    destination holds exactly the bytes of that last stream: nothing of an
    earlier partial write, nothing of a file that was there before. *)
Theorem download_file_first_success k file_path save_path w chunks :
  k < MAX_RETRIES ->
  can_open (w_fs w) save_path = true ->
  (forall j, j < k ->
     stream_attempt_fails (file_reply net (w_clock w + j) file_path) = true) ->
  file_reply net (w_clock w + k) file_path = SChunks chunks true ->
  download_file net file_path save_path w =
  (Ret true,
   {| w_fs := <[save_path := File (concat chunks)]> (w_fs w);
      w_clock := w_clock w + k + 1;
      w_trace := w_trace w
        ++ flat_map (fun _ => [EvFileGet file_path; EvSleep RETRY_DELAY]) (seq 0 k)
        ++ [EvFileGet file_path] |}).
Proof.
  intros Hk Hopen Hfail Hok. unfold download_file, MAX_RETRIES in *.
  destruct k as [|[|[|k]]]; [| | |lia].
  - exact (download_attempts_first_success [] 0 [1; 2] _ _ w _ Hopen Hfail Hok).
  - exact (download_attempts_first_success [0] 1 [2] _ _ w _ Hopen Hfail Hok).
  - exact (download_attempts_first_success [0; 1] 2 [] _ _ w _ Hopen Hfail Hok).
Qed.

Lemma write_all_other p chunks fs q :
  q <> p ->
  foldl (fun fs chunk => fs_write fs p chunk) fs chunks !! q = fs !! q.
Proof.
  intros Hq. revert fs. induction chunks as [|chunk chunks IH]; intros fs; [done|].
  cbn [foldl]. rewrite IH. unfold fs_write. by rewrite lookup_alter_ne.
Qed.

Lemma cleanup_other save_path w w1 q :
  cleanup save_path w = (Ret tt, w1) -> q <> save_path ->
  w_fs w1 !! q = w_fs w !! q.
Proof.
  rewrite cleanup_run. intros H Hq.
  destruct (lookup_node (w_fs w) save_path) as [[content|]|];
    [|discriminate|by injection H as <-].
  injection H as <-. cbn [set_fs w_fs]. by rewrite lookup_delete_ne.
Qed.

Lemma download_attempts_other attempts file_path save_path w b w' q :
  download_attempts net attempts file_path save_path w = (Ret b, w') ->
  q <> save_path ->
  w_fs w' !! q = w_fs w !! q.
Proof.
  intros H Hq.
  revert w H. induction attempts as [|attempt rest IH]; intros w H.
  - by injection H as <- <-.
  - assert (Hhandler : forall w2,
      (when (attempt <? MAX_RETRIES - 1) (sleep RETRY_DELAY);;
       cleanup save_path;;
       download_attempts net rest file_path save_path) w2 = (Ret b, w') ->
      w_fs w' !! q = w_fs w2 !! q).
    { intros w2 Hh.
      apply bind_Ret_inv in Hh as ([] & w3 & Hpause & Hh).
      apply pause_inv in Hpause.
      apply bind_Ret_inv in Hh as ([] & w4 & Hclean & Hh).
      apply (cleanup_other _ _ _ q) in Hclean; [|done].
      rewrite (IH _ Hh). congruence. }
    cbn [download_attempts] in H.
    apply bind_Ret_inv in H as (r & w1 & Hget & H).
    apply http_get_stream_inv in Hget.
    destruct r as [|chunks complete].
    + rewrite (Hhandler _ H). by rewrite Hget.
    + apply bind_Ret_inv in H as ([] & w2 & Hopen & H).
      apply open_wb_inv in Hopen as (_ & Hopen).
      apply bind_Ret_inv in H as ([] & w3 & Hwrite & H).
      apply write_chunks_inv in Hwrite.
      assert (w_fs w3 !! q = w_fs w !! q) as Hw3.
      { rewrite Hwrite, write_all_other, Hopen, Hget by done.
        by rewrite lookup_insert_ne. }
      destruct complete.
      * injection H as <- <-. exact Hw3.
      * by rewrite (Hhandler _ H).
Qed.

(** Whatever it returns, [download_file] changes no path other than its
    destination. *)
Theorem download_file_touches_destination_only file_path save_path w b w' q :
  download_file net file_path save_path w = (Ret b, w') ->
  q <> save_path ->
  w_fs w' !! q = w_fs w !! q.
Proof. apply download_attempts_other. Qed.

Lemma fs_open_wb_fail fs p :
  can_open fs p = false -> fs_open_wb fs p = Raise OSError.
Proof.
  unfold can_open, fs_open_wb.
  destruct (lookup_node fs (parent p)) as [[]|]; try done.
  destruct (lookup_node fs p) as [[]|]; done.
Qed.

(** File-system errors are not handled: when the destination cannot be
    opened, the [OSError] of [open] escapes from the first attempt that got a
    response, and when a request fails while the destination is a directory,
    the [OSError] of [unlink] escapes from the handler; in both cases after
    one request, without another attempt. *)
Theorem download_file_os_error_escapes file_path save_path w :
  (forall chunks complete,
     file_reply net (w_clock w) file_path = SChunks chunks complete ->
     can_open (w_fs w) save_path = false ->
     download_file net file_path save_path w
     = (Raise OSError, after_request w (EvFileGet file_path)))
  /\ (file_reply net (w_clock w) file_path = SFail ->
      lookup_node (w_fs w) save_path = Some Dir ->
      download_file net file_path save_path w
      = (Raise OSError, after_failure w (EvFileGet file_path) 0)).
Proof.
  split.
  - intros chunks complete Hreply Hopen.
    unfold download_file. cbn [seq MAX_RETRIES download_attempts].
    unfold mbind, M_bind, bind, http_get_stream. rewrite Hreply.
    unfold open_wb, with_fs. cbn [w_fs].
    by rewrite fs_open_wb_fail.
  - intros Hreply Hdir.
    unfold download_file. cbn [seq MAX_RETRIES download_attempts].
    unfold mbind, M_bind, bind, http_get_stream. rewrite Hreply.
    fold (after_request w (EvFileGet file_path)).
    rewrite retry_pause_run, cleanup_run. cbn [after_failure w_fs].
    by rewrite Hdir.
Qed.

End DownloadMore.

Lemma download_file_first_success_witness :
  download_file net_second_try (PStr (lit "doc/a.pdf"))
    [lit "laws"; lit "a.pdf"] w_laws
  = (Ret true,
     {| w_fs := <[ [lit "laws"; lit "a.pdf"] := File [37; 80; 68; 70]%N ]> (w_fs w_laws);
        w_clock := 2;
        w_trace := [EvFileGet (PStr (lit "doc/a.pdf")); EvSleep RETRY_DELAY;
                    EvFileGet (PStr (lit "doc/a.pdf"))] |}).
Proof.
  refine (download_file_first_success net_second_try 1 (PStr (lit "doc/a.pdf"))
            [lit "laws"; lit "a.pdf"] w_laws [[37; 80]%N; [68; 70]%N] _ _ _ _).
  - unfold MAX_RETRIES. lia.
  - vm_compute. reflexivity.
  - intros j Hj. assert (j = 0) as -> by lia. reflexivity.
  - reflexivity.
Defined.

Lemma get_folder_data_first_success_witness :
  get_folder_data net_third_try (PInt 12) w_empty
  = (Ret (PDict []),
     {| w_fs := ∅; w_clock := 3;
        w_trace := [EvFolderGet (PInt 12); EvSleep RETRY_DELAY;
                    EvFolderGet (PInt 12); EvSleep RETRY_DELAY;
                    EvFolderGet (PInt 12)] |}).
Proof.
  refine (get_folder_data_first_success net_third_try 2 (PInt 12) w_empty
            (PDict []) _ _ _).
  - unfold MAX_RETRIES. lia.
  - intros j Hj. destruct j as [|[|j]]; [reflexivity | reflexivity | lia].
  - reflexivity.
Defined.

Lemma get_folder_data_bounds_witness :
  w_clock w_empty < w_clock (snd (get_folder_data net_scenario (PInt 12) w_empty))
  <= w_clock w_empty + MAX_RETRIES.
Proof.
  apply (get_folder_data_bounds net_scenario (PInt 12) w_empty
           (fst (get_folder_data net_scenario (PInt 12) w_empty))).
  vm_compute. reflexivity.
Defined.

Lemma download_file_touches_destination_only_witness :
  w_fs (snd (download_file net_scenario (PStr (lit "doc/a.pdf"))
               [lit "laws"; lit "a.pdf"] w_laws)) !! [lit "laws"]
  = w_fs w_laws !! [lit "laws"].
Proof.
  apply (download_file_touches_destination_only net_scenario
           (PStr (lit "doc/a.pdf")) [lit "laws"; lit "a.pdf"] w_laws true).
  - vm_compute. reflexivity.
  - discriminate.
Defined.

Lemma download_file_os_error_escapes_witness :
  download_file net_scenario (PStr (lit "doc/a.pdf"))
    [lit "missing"; lit "a.pdf"] w_laws
  = (Raise OSError, after_request w_laws (EvFileGet (PStr (lit "doc/a.pdf"))))
  /\ download_file net_down (PStr (lit "doc/a.pdf")) [lit "laws"] w_laws
     = (Raise OSError, after_failure w_laws (EvFileGet (PStr (lit "doc/a.pdf"))) 0).
Proof.
  split.
  - apply (proj1 (download_file_os_error_escapes net_scenario _ _ w_laws)
             [[37; 80; 68; 70]%N] true); reflexivity.
  - apply (proj2 (download_file_os_error_escapes net_down _ _ w_laws)); reflexivity.
Defined.

(** ** The files loop: counting and completeness *)

Section WalkerMore.

Variable fmt : pyval -> str.
Variable unquote : str -> str.
Variable net : network.

Lemma has_path_get file_info file_path :
  py_get file_info (lit "path") (PStr []) = Ret file_path ->
  has_path file_info = truthy file_path.
Proof. unfold has_path. by intros ->. Qed.

(** Every entry with a path is counted exactly once, as downloaded or as
    failed; entries without a path are not counted. *)
Theorem process_files_counts_each_entry
    files current_path downloaded failed w d' f' w' :
  process_files unquote net files current_path downloaded failed w
    = (Ret (d', f'), w') ->
  d' + f' = downloaded + failed + length (List.filter has_path files).
Proof.
  revert downloaded failed w.
  induction files as [|file_info rest IH]; intros downloaded failed w H.
  - injection H as <- <-. cbn. lia.
  - cbn [process_files] in H.
    apply bind_Ret_inv in H as (file_path & ? & Hp & H).
    apply lift_Ret_inv in Hp as (Hp & ->).
    apply bind_Ret_inv in H as (file_name & ? & Hn & H).
    apply lift_Ret_inv in Hn as (Hn & ->).
    cbn [List.filter]. rewrite (has_path_get _ _ Hp).
    destruct (truthy file_path); cbn [negb] in H; [|by apply IH in H].
    apply bind_Ret_inv in H as (safe_name & ? & Hs & H).
    apply lift_Ret_inv in Hs as (Hs & ->).
    apply bind_Ret_inv in H as (ex & ? & Hex & H).
    apply path_exists_inv in Hex as (-> & Hex).
    destruct ex; [apply IH in H; cbn [length]; lia|].
    apply bind_Ret_inv in H as (ok & w2 & Hd & H).
    apply bind_Ret_inv in H as ([] & w3 & Hsl & H).
    destruct ok; apply IH in H; cbn [length]; lia.
Qed.


(** A run that returns has only added to the file system: every file and
    directory that existed before is still there, unchanged. *)
Theorem walk_never_overwrites :
  (forall fuel folder_id current_path w r w' p n,
     process_folder fmt unquote net fuel folder_id current_path w = (Ret r, w') ->
     w_fs w !! p = Some n -> w_fs w' !! p = Some n)
  /\ (forall fuel w r w' p n,
        main fmt unquote net fuel w = (Ret r, w') ->
        w_fs w !! p = Some n -> w_fs w' !! p = Some n).
Proof.
  split.
  - intros fuel folder_id current_path w r w' p n H Hp.
    eapply lookup_weaken; [exact Hp|]. by eapply process_folder_mono.
  - intros fuel w r w' p n H Hp. unfold main in H.
    apply bind_Ret_inv in H as ([] & w1 & Hdir & H).
    apply mkdir_parents_inv in Hdir as (Hsub1 & _).
    apply main_loop_mono in H as (Hsub2 & _).
    eapply lookup_weaken; [exact Hp|]. by transitivity (w_fs w1).
Qed.

(** The directory of every subfolder that has an id exists once the
    subfolder loop returns, also when the fetch of that subfolder failed. *)
Theorem subfolder_directories_exist
    fuel folders current_path downloaded failed w r w' :
  process_subfolders fmt (process_folder fmt unquote net fuel)
    folders current_path downloaded failed w = (Ret r, w') ->
  forall subfolder subfolder_id subfolder_name,
    subfolder ∈ folders ->
    py_get subfolder (lit "id") PNone = Ret subfolder_id ->
    subfolder_id <> PNone ->
    py_get subfolder (lit "name") (PStr (lit "folder_" ++ fmt subfolder_id))
      = Ret (PStr subfolder_name) ->
    w_fs w' !! (current_path ++ [sanitize_filename subfolder_name]) = Some Dir.
Proof.
  pose proof (process_folder_mono fmt unquote net fuel) as Hmono.
  revert downloaded failed w.
  induction folders as [|entry rest IH];
    intros downloaded failed w H subfolder subfolder_id subfolder_name
      Hin Hid Hne Hname.
  - by apply elem_of_nil in Hin.
  - cbn [process_subfolders] in H.
    apply bind_Ret_inv in H as (id0 & ? & Hid0 & H).
    apply lift_Ret_inv in Hid0 as (Hid0 & ->).
    apply bind_Ret_inv in H as (name0 & ? & Hname0 & H).
    apply lift_Ret_inv in Hname0 as (Hname0 & ->).
    assert (Hgo :
      (safe_folder_name ← lift (py_sanitize name0);
       mkdir_parents (current_path ++ [safe_folder_name]);;
       sub ← process_folder fmt unquote net fuel id0
               (current_path ++ [safe_folder_name]);
       process_subfolders fmt (process_folder fmt unquote net fuel) rest
         current_path (downloaded + fst sub) (failed + snd sub)) w = (Ret r, w') ->
      w_fs w' !! (current_path ++ [sanitize_filename subfolder_name]) = Some Dir).
    { clear H. intros H.
      apply bind_Ret_inv in H as (safe_folder_name & ? & Hs & H).
      apply lift_Ret_inv in Hs as (Hs & ->).
      apply bind_Ret_inv in H as ([] & w1 & Hdir & H).
      apply mkdir_parents_inv in Hdir as (_ & Hdir & _).
      apply bind_Ret_inv in H as (sub & w2 & Hrec & H).
      apply elem_of_cons in Hin as [->|Hin];
        [|by apply (IH _ _ _ H subfolder subfolder_id)].
      assert (id0 = subfolder_id) as -> by congruence.
      assert (name0 = PStr subfolder_name) as -> by congruence.
      injection Hs as <-.
      apply Hmono in Hrec.
      apply (process_subfolders_mono fmt _ Hmono) in H as (Hsub & _).
      rewrite lookup_node_nonempty in Hdir by (by destruct current_path).
      eapply lookup_weaken; [exact Hdir | by transitivity (w_fs w2)]. }
    destruct id0; [|by apply Hgo ..].
    apply elem_of_cons in Hin as [->|Hin]; [congruence|].
    by apply (IH _ _ _ H subfolder subfolder_id).
Qed.

(** When no folder can be fetched, the run ends normally with (0, 0) after
    exactly six requests, three per root, and creates nothing but the output
    directory. *)
Theorem dead_service_run fuel w w1 :
  (forall t folder_id,
     folder_attempt_fails (folder_reply net t folder_id) = true) ->
  mkdir_parents OUTPUT_DIR w = (Ret tt, w1) ->
  main fmt unquote net fuel w =
  (Ret (0, 0),
   {| w_fs := w_fs w1; w_clock := w_clock w + 6;
      w_trace := w_trace w ++
        [EvFolderGet (PInt 12); EvSleep RETRY_DELAY;
         EvFolderGet (PInt 12); EvSleep RETRY_DELAY;
         EvFolderGet (PInt 12);
         EvFolderGet (PInt 569); EvSleep RETRY_DELAY;
         EvFolderGet (PInt 569); EvSleep RETRY_DELAY;
         EvFolderGet (PInt 569)] |}).
Proof.
  intros Hdead Hdir. unfold main. rewrite (bind_Ret _ _ _ _ _ Hdir).
  apply mkdir_parents_inv in Hdir as (_ & _ & Hclock & Htrace).
  unfold ROOT_FOLDER_IDS. cbn [main_loop].
  unfold get_folder_data.
  unfold mbind at 1, M_bind at 1, bind at 1.
  rewrite get_folder_attempts_all_fail by (intros; apply Hdead).
  unfold mbind at 1, M_bind at 1, bind at 1.
  rewrite get_folder_attempts_all_fail by (intros; apply Hdead).
  cbn [w_fs w_clock w_trace]. unfold mret, M_ret, ret.
  rewrite Hclock, Htrace, <- !app_assoc. do 2 f_equal.
  rewrite !length_seq. unfold MAX_RETRIES. lia.
Qed.

End WalkerMore.

(** ** The walk stays below its directory *)

Section Confinement.

Variable fmt : pyval -> str.
Variable unquote : str -> str.
Variable net : network.

Implicit Types (fs : gmap path node) (p q cp : path).

Lemma dirs_exist_weaken fs fs' cp :
  dirs_exist fs cp -> fs ⊆ fs' -> dirs_exist fs' cp.
Proof. intros H Hsub q Hq. eapply lookup_node_weaken; [by apply H | done]. Qed.

Lemma dirs_exist_snoc fs cp (c : list N) :
  dirs_exist fs cp -> lookup_node fs (cp ++ [c]) = Some Dir ->
  dirs_exist fs (cp ++ [c]).
Proof.
  intros H Hc q [k Hk].
  destruct k as [|x k _] using rev_ind.
  - rewrite app_nil_r in Hk. by subst.
  - rewrite app_assoc in Hk. apply app_inj_tail in Hk as [-> _].
    apply H. by exists k.
Qed.

Lemma mkdir_from_noop base todo fs :
  (forall k, 0 < k <= length todo ->
     lookup_node fs (base ++ take k todo) = Some Dir) ->
  mkdir_from base todo fs = Ret fs.
Proof.
  revert base. induction todo as [|c todo IH]; intros base H; [done|].
  cbn [mkdir_from]. unfold mkdir1.
  assert (lookup_node fs (base ++ [c]) = Some Dir) as ->
    by apply (H 1 ltac:(cbn; lia)).
  apply IH. intros k Hk.
  rewrite <- app_assoc. apply (H (S k)). cbn. lia.
Qed.

Lemma mkdir_from_app base a b fs :
  mkdir_from base (a ++ b) fs =
  match mkdir_from base a fs with
  | Ret fs1 => mkdir_from (base ++ a) b fs1
  | other => other
  end.
Proof.
  revert base fs. induction a as [|c a IH]; intros base fs.
  - cbn. by rewrite app_nil_r.
  - cbn [app mkdir_from]. destruct (mkdir1 fs (base ++ [c])); [|done..].
    rewrite IH. by rewrite <- app_assoc.
Qed.

(** Below a directory that exists with its ancestors, creating a child
    touches only the child. *)
Lemma mkdir_child cp (c : list N) w w1 :
  dirs_exist (w_fs w) cp ->
  mkdir_parents (cp ++ [c]) w = (Ret tt, w1) ->
  (forall p, p <> cp ++ [c] -> w_fs w1 !! p = w_fs w !! p)
  /\ dirs_exist (w_fs w1) (cp ++ [c]).
Proof.
  intros Hdirs H. pose proof (mkdir_parents_inv _ _ _ H) as (Hsub & Hdir & _).
  split; [|by apply dirs_exist_snoc; [eapply dirs_exist_weaken|]].
  unfold mkdir_parents, with_fs in H.
  rewrite mkdir_from_app, (mkdir_from_noop [] cp) in H.
  2:{ intros k _. apply Hdirs. apply prefix_take. }
  cbn [mkdir_from app] in H. unfold mkdir1 in H.
  destruct (lookup_node (w_fs w) (cp ++ [c])) as [[]|]; [discriminate| |];
    injection H as <-; intros p Hp; cbn [set_fs w_fs]; [done|].
  by rewrite lookup_insert_ne.
Qed.

Lemma process_files_confined files current_path downloaded failed w r w' p :
  process_files unquote net files current_path downloaded failed w = (Ret r, w') ->
  ~ current_path `prefix_of` p ->
  w_fs w' !! p = w_fs w !! p.
Proof.
  intros H Hp. revert downloaded failed w H.
  induction files as [|file_info rest IH]; intros downloaded failed w H.
  - by injection H as <- <-.
  - cbn [process_files] in H.
    apply bind_Ret_inv in H as (file_path & ? & Hpath & H).
    apply lift_Ret_inv in Hpath as (_ & ->).
    apply bind_Ret_inv in H as (file_name & ? & Hn & H).
    apply lift_Ret_inv in Hn as (_ & ->).
    destruct (truthy file_path); cbn [negb] in H; [|by apply IH in H].
    apply bind_Ret_inv in H as (safe_name & ? & Hs & H).
    apply lift_Ret_inv in Hs as (_ & ->).
    apply bind_Ret_inv in H as (ex & ? & Hex & H).
    apply path_exists_inv in Hex as (-> & _).
    destruct ex; [by apply IH in H|].
    apply bind_Ret_inv in H as (ok & w2 & Hd & H).
    apply (download_attempts_other _ _ _ _ _ _ _ p) in Hd.
    2:{ intros ->. apply Hp. by exists [safe_name]. }
    apply bind_Ret_inv in H as ([] & w3 & Hsl & H).
    apply sleep_inv in Hsl.
    destruct ok; apply IH in H; congruence.
Qed.

Section SubfoldersConfined.

Variable recurse : pyval -> path -> M (nat * nat).

Hypothesis recurse_mono : forall folder_id cp w r w',
  recurse folder_id cp w = (Ret r, w') -> w_fs w ⊆ w_fs w'.

Hypothesis recurse_confined : forall folder_id cp w r w' p,
  dirs_exist (w_fs w) cp ->
  recurse folder_id cp w = (Ret r, w') ->
  ~ cp `prefix_of` p -> w_fs w' !! p = w_fs w !! p.

Lemma process_subfolders_confined folders current_path downloaded failed w r w' p :
  dirs_exist (w_fs w) current_path ->
  process_subfolders fmt recurse folders current_path downloaded failed w
    = (Ret r, w') ->
  ~ current_path `prefix_of` p ->
  w_fs w' !! p = w_fs w !! p.
Proof.
  intros Hdirs H Hp. revert downloaded failed w Hdirs H.
  induction folders as [|subfolder rest IH]; intros downloaded failed w Hdirs H.
  - by injection H as <- <-.
  - cbn [process_subfolders] in H.
    apply bind_Ret_inv in H as (subfolder_id & ? & Hid & H).
    apply lift_Ret_inv in Hid as (_ & ->).
    apply bind_Ret_inv in H as (subfolder_name & ? & Hname & H).
    apply lift_Ret_inv in Hname as (_ & ->).
    assert (Hgo :
      (safe_folder_name ← lift (py_sanitize subfolder_name);
       mkdir_parents (current_path ++ [safe_folder_name]);;
       sub ← recurse subfolder_id (current_path ++ [safe_folder_name]);
       process_subfolders fmt recurse rest current_path
         (downloaded + fst sub) (failed + snd sub)) w = (Ret r, w') ->
      w_fs w' !! p = w_fs w !! p).
    { clear H. intros H.
      apply bind_Ret_inv in H as (safe_folder_name & ? & Hs & H).
      apply lift_Ret_inv in Hs as (_ & ->).
      apply bind_Ret_inv in H as ([] & w1 & Hdir & H).
      pose proof (mkdir_parents_inv _ _ _ Hdir) as (Hsub1 & _).
      apply (mkdir_child _ _ _ _ Hdirs) in Hdir as (Hframe1 & Hdirs1).
      apply bind_Ret_inv in H as (sub & w2 & Hrec & H).
      pose proof (recurse_mono _ _ _ _ _ Hrec) as Hsub2.
      apply (recurse_confined _ _ _ _ _ p Hdirs1) in Hrec.
      2:{ intros Hpre. apply Hp. by eapply prefix_app_l. }
      apply IH in H.
      2:{ eapply dirs_exist_weaken; [exact Hdirs | by transitivity (w_fs w1)]. }
      rewrite H, Hrec. apply Hframe1. intros ->. apply Hp.
      by exists [safe_folder_name]. }
    destruct subfolder_id; [by apply (IH _ _ _ Hdirs H) | by apply Hgo ..].
Qed.

End SubfoldersConfined.

Lemma process_folder_confined fuel folder_id current_path w r w' p :
  dirs_exist (w_fs w) current_path ->
  process_folder fmt unquote net fuel folder_id current_path w = (Ret r, w') ->
  ~ current_path `prefix_of` p ->
  w_fs w' !! p = w_fs w !! p.
Proof.
  revert folder_id current_path w r w' p.
  induction fuel as [|fuel IH]; intros folder_id current_path w r w' p Hdirs H Hp;
    [discriminate|].
  cbn [process_folder] in H.
  apply bind_Ret_inv in H as (data & w1 & Hfetch & H).
  apply get_folder_attempts_effects in Hfetch as (Hfs1 & _).
  rewrite <- Hfs1 in Hdirs |- *.
  assert (Hgo :
    (folder_name ← lift (py_get data (lit "name")
                           (PStr (lit "folder_" ++ fmt folder_id)));
     files ← lift (py_get data (lit "files") (PList []));
     files ← lift (py_iter files);
     counts ← process_files unquote net files current_path 0 0;
     folders ← lift (py_get data (lit "folders") (PList []));
     folders ← lift (py_iter folders);
     process_subfolders fmt (process_folder fmt unquote net fuel) folders
       current_path (fst counts) (snd counts)) w1 = (Ret r, w') ->
    w_fs w' !! p = w_fs w1 !! p).
  { clear H. intros H.
    apply bind_Ret_inv in H as (folder_name & ? & Hname & H).
    apply lift_Ret_inv in Hname as (_ & ->).
    apply bind_Ret_inv in H as (files0 & ? & Hf0 & H).
    apply lift_Ret_inv in Hf0 as (_ & ->).
    apply bind_Ret_inv in H as (files & ? & Hf & H).
    apply lift_Ret_inv in Hf as (_ & ->).
    apply bind_Ret_inv in H as (counts & w2 & Hfiles & H).
    pose proof (process_files_mono _ _ _ _ _ _ _ _ _ Hfiles) as (Hsub2 & _).
    apply (process_files_confined _ _ _ _ _ _ _ p) in Hfiles; [|done].
    apply bind_Ret_inv in H as (folders0 & ? & Hd0 & H).
    apply lift_Ret_inv in Hd0 as (_ & ->).
    apply bind_Ret_inv in H as (folders & ? & Hd & H).
    apply lift_Ret_inv in Hd as (_ & ->).
    apply (process_subfolders_confined _
             (process_folder_mono fmt unquote net fuel) IH
             _ _ _ _ _ _ _ p) in H; [congruence | | done].
    by eapply dirs_exist_weaken. }
  destruct data; [by injection H as <- <- | by apply Hgo ..].
Qed.

Lemma main_loop_confined fuel roots total_downloaded total_failed w r w' p :
  dirs_exist (w_fs w) OUTPUT_DIR ->
  main_loop fmt unquote net fuel roots total_downloaded total_failed w
    = (Ret r, w') ->
  ~ OUTPUT_DIR `prefix_of` p ->
  w_fs w' !! p = w_fs w !! p.
Proof.
  intros Hdirs H Hp. revert total_downloaded total_failed w Hdirs H.
  induction roots as [|root_id rest IH]; intros td tf w Hdirs H.
  - by injection H as <- <-.
  - cbn [main_loop] in H.
    apply bind_Ret_inv in H as (root_data & w1 & Hfetch & H).
    apply get_folder_attempts_effects in Hfetch as (Hfs1 & _).
    rewrite <- Hfs1 in Hdirs |- *.
    assert (Hgo :
      (root_name ← lift (py_get root_data (lit "name")
                           (PStr (lit "resources_" ++ fmt root_id)));
       safe_root_name ← lift (py_sanitize root_name);
       mkdir_parents (OUTPUT_DIR ++ [safe_root_name]);;
       counts ← process_folder fmt unquote net fuel root_id
                  (OUTPUT_DIR ++ [safe_root_name]);
       main_loop fmt unquote net fuel rest
         (td + fst counts) (tf + snd counts)) w1 = (Ret r, w') ->
      w_fs w' !! p = w_fs w1 !! p).
    { clear H. intros H.
      apply bind_Ret_inv in H as (root_name & ? & Hname & H).
      apply lift_Ret_inv in Hname as (_ & ->).
      apply bind_Ret_inv in H as (safe_root_name & ? & Hs & H).
      apply lift_Ret_inv in Hs as (_ & ->).
      apply bind_Ret_inv in H as ([] & w2 & Hdir & H).
      pose proof (mkdir_parents_inv _ _ _ Hdir) as (Hsub2 & _).
      apply (mkdir_child _ _ _ _ Hdirs) in Hdir as (Hframe2 & Hdirs2).
      apply bind_Ret_inv in H as (counts & w3 & Hrun & H).
      pose proof (process_folder_mono _ _ _ _ _ _ _ _ _ Hrun) as Hsub3.
      apply (process_folder_confined _ _ _ _ _ _ p Hdirs2) in Hrun.
      2:{ intros Hpre. apply Hp. by eapply prefix_app_l. }
      apply IH in H.
      2:{ eapply dirs_exist_weaken; [exact Hdirs | by transitivity (w_fs w2)]. }
      rewrite H, Hrun. apply Hframe2. intros ->. apply Hp.
      by exists [safe_root_name]. }
    destruct root_data; [by apply (IH _ _ _ Hdirs H) | by apply Hgo ..].
Qed.

(** A walk changes nothing outside its directory: [process_folder], called
    on a directory that exists with its ancestors, leaves every path that is
    not below that directory as it was, and a whole run leaves every path
    that is not below the output directory as it was. *)
Theorem walk_stays_below_directory :
  (forall fuel folder_id current_path w r w' p,
     dirs_exist (w_fs w) current_path ->
     process_folder fmt unquote net fuel folder_id current_path w = (Ret r, w') ->
     ~ current_path `prefix_of` p ->
     w_fs w' !! p = w_fs w !! p)
  /\ (forall fuel w r w' p,
        main fmt unquote net fuel w = (Ret r, w') ->
        ~ OUTPUT_DIR `prefix_of` p ->
        w_fs w' !! p = w_fs w !! p).
Proof.
  split; [apply process_folder_confined|].
  intros fuel w r w' p H Hp. unfold main in H.
  apply bind_Ret_inv in H as ([] & w1 & Hdir & H).
  assert (dirs_exist (w_fs w) []) as Hroot.
  { intros q [k Hk]. symmetry in Hk. by apply app_eq_nil in Hk as [-> _]. }
  apply (mkdir_child [] (lit "laws") _ _ Hroot) in Hdir as (Hframe & Hdirs).
  apply (main_loop_confined _ _ _ _ _ _ _ p Hdirs) in H; [|done].
  rewrite H. apply Hframe. intros ->. apply Hp. by exists [].
Qed.

End Confinement.

(** ** Requests sent by the files loop *)

Section RequestBound.

Variable unquote : str -> str.
Variable net : network.

Lemma with_fs_clock op w w1 :
  with_fs op w = (Ret tt, w1) -> w_clock w1 = w_clock w.
Proof.
  unfold with_fs. destruct (op (w_fs w)); [|discriminate..]. by intros [= <-].
Qed.

Lemma pause_clock attempt w w1 :
  when (attempt <? MAX_RETRIES - 1) (sleep RETRY_DELAY) w = (Ret tt, w1) ->
  w_clock w1 = w_clock w.
Proof.
  unfold when. destruct (attempt <? MAX_RETRIES - 1); intros [= <-]; reflexivity.
Qed.

Lemma download_attempts_clock attempts file_path save_path w b w' :
  download_attempts net attempts file_path save_path w = (Ret b, w') ->
  w_clock w' <= w_clock w + length attempts.
Proof.
  revert w. induction attempts as [|attempt rest IH]; intros w H.
  - injection H as <- <-. lia.
  - assert (Hhandler : forall w2,
      (when (attempt <? MAX_RETRIES - 1) (sleep RETRY_DELAY);;
       cleanup save_path;;
       download_attempts net rest file_path save_path) w2 = (Ret b, w') ->
      w_clock w' <= w_clock w2 + length rest).
    { intros w2 Hh.
      apply bind_Ret_inv in Hh as ([] & w3 & Hpause & Hh).
      apply pause_clock in Hpause.
      apply bind_Ret_inv in Hh as ([] & w4 & Hclean & Hh).
      apply cleanup_removes in Hclean as (_ & Hclean & _).
      apply IH in Hh. lia. }
    cbn [download_attempts length] in H |- *.
    apply bind_Ret_inv in H as (r & w1 & Hget & H).
    assert (w_clock w1 = S (w_clock w)) as Hc1
      by (unfold http_get_stream in Hget; by injection Hget as <- <-).
    destruct r as [|chunks complete].
    + apply Hhandler in H. lia.
    + apply bind_Ret_inv in H as ([] & w2 & Hopen & H).
      unfold open_wb in Hopen. apply with_fs_clock in Hopen.
      apply bind_Ret_inv in H as ([] & w3 & Hwrite & H).
      unfold write_chunks in Hwrite. apply with_fs_clock in Hwrite.
      destruct complete.
      * injection H as <- <-. lia.
      * apply Hhandler in H. lia.
Qed.

(** The files loop sends at most [MAX_RETRIES] requests for each entry
    with a path and none for the other entries. *)
Theorem process_files_request_bound
    files current_path downloaded failed w r w' :
  process_files unquote net files current_path downloaded failed w = (Ret r, w') ->
  w_clock w' <= w_clock w + MAX_RETRIES * length (List.filter has_path files).
Proof.
  revert downloaded failed w.
  induction files as [|file_info rest IH]; intros downloaded failed w H.
  - injection H as <- <-. lia.
  - cbn [process_files] in H.
    apply bind_Ret_inv in H as (file_path & ? & Hp & H).
    apply lift_Ret_inv in Hp as (Hp & ->).
    apply bind_Ret_inv in H as (file_name & ? & Hn & H).
    apply lift_Ret_inv in Hn as (Hn & ->).
    cbn [List.filter]. rewrite (has_path_get _ _ Hp).
    destruct (truthy file_path); cbn [negb] in H; [|by apply IH in H].
    apply bind_Ret_inv in H as (safe_name & ? & Hs & H).
    apply lift_Ret_inv in Hs as (Hs & ->).
    apply bind_Ret_inv in H as (ex & ? & Hex & H).
    apply path_exists_inv in Hex as (-> & Hex).
    destruct ex; [apply IH in H; cbn [length]; lia|].
    apply bind_Ret_inv in H as (ok & w2 & Hd & H).
    apply download_attempts_clock in Hd. rewrite length_seq in Hd.
    apply bind_Ret_inv in H as ([] & w3 & Hsl & H).
    assert (w_clock w3 = w_clock w2) as Hc3
      by (unfold sleep in Hsl; by injection Hsl as <-).
    destruct ok; apply IH in H; cbn [length]; lia.
Qed.

End RequestBound.

(** ** Instances of the further properties *)


(** One entry with a path and one without: one file counted. *)
Lemma process_files_counts_each_entry_witness :
  1 + 0 = 0 + 0 + length (List.filter has_path two_entries).
Proof.
  apply (process_files_counts_each_entry unquote_plain net_scenario
           two_entries [lit "laws"] 0 0 w_laws 1 0
           (snd (process_files unquote_plain net_scenario two_entries
                   [lit "laws"] 0 0 w_laws))).
  vm_compute. reflexivity.
Defined.


(** A file saved before the run is still there after it. *)
Lemma walk_never_overwrites_witness :
  w_fs (snd (main fmt_scalar unquote_plain net_scenario 2 w_saved))
    !! [lit "laws"; lit "Law A.pdf"] = Some (File [37; 80; 68; 70]%N).
Proof.
  apply (proj2 (walk_never_overwrites fmt_scalar unquote_plain net_scenario)
           2 w_saved (1, 0)).
  - vm_compute. reflexivity.
  - reflexivity.
Defined.

(** The directory of folder 5, whose fetch fails, exists after the loop. *)
Lemma subfolder_directories_exist_witness :
  w_fs (snd (process_subfolders fmt_scalar
               (process_folder fmt_scalar unquote_plain net_scenario 1)
               [dict [("id", PInt 5); ("name", PStr (lit "Broken"))]]
               [lit "laws"] 0 0 w_laws))
    !! ([lit "laws"] ++ [sanitize_filename (lit "Broken")]) = Some Dir.
Proof.
  apply (subfolder_directories_exist fmt_scalar unquote_plain net_scenario 1
           [dict [("id", PInt 5); ("name", PStr (lit "Broken"))]]
           [lit "laws"] 0 0 w_laws (0, 0)
           (snd (process_subfolders fmt_scalar
                   (process_folder fmt_scalar unquote_plain net_scenario 1)
                   [dict [("id", PInt 5); ("name", PStr (lit "Broken"))]]
                   [lit "laws"] 0 0 w_laws))
           ltac:(vm_compute; reflexivity)
           (dict [("id", PInt 5); ("name", PStr (lit "Broken"))]) (PInt 5)).
  - apply list_elem_of_here.
  - reflexivity.
  - discriminate.
  - reflexivity.
Defined.

Lemma dead_service_run_witness :
  fst (main fmt_scalar unquote_plain net_broken_stream 0 w_empty) = Ret (0, 0).
Proof.
  rewrite (dead_service_run fmt_scalar unquote_plain net_broken_stream 0 w_empty
             (snd (mkdir_parents OUTPUT_DIR w_empty))).
  - reflexivity.
  - intros t folder_id. reflexivity.
  - vm_compute. reflexivity.
Defined.

(** A file next to the output directory is left alone by the run. *)
Lemma walk_stays_below_directory_witness :
  w_fs (snd (main fmt_scalar unquote_plain net_scenario 2 w_empty))
    !! [lit "notes.txt"] = w_fs w_empty !! [lit "notes.txt"].
Proof.
  apply (proj2 (walk_stays_below_directory fmt_scalar unquote_plain net_scenario)
           2 w_empty (1, 0)).
  - vm_compute. reflexivity.
  - intros [k Hk]. discriminate.
Defined.

Lemma process_files_request_bound_witness :
  w_clock (snd (process_files unquote_plain net_broken_stream two_entries
                  [lit "laws"] 0 0 w_laws))
  <= w_clock w_laws + MAX_RETRIES * length (List.filter has_path two_entries).
Proof.
  apply (process_files_request_bound unquote_plain net_broken_stream
           two_entries [lit "laws"] 0 0 w_laws (0, 1)).
  vm_compute. reflexivity.
Defined.
